(** * Cart handlers of [src/app.js]

    A shallow embedding of the authenticated cart routes of the Koa
    application ([/add-to-cart], [/get-cart], [/calculate-total]), of the
    [authenticateToken] middleware in front of them and of the role check of
    [/add-product].

    - The PostgreSQL store is an explicit value [Db] threaded through the
      handlers; a table is the list of its rows in scan order, and each SQL
      statement of the source is one function on that list.
    - JavaScript numbers are IEEE-754 binary64 values: the kernel's primitive
      [float], whose [add] and [mul] round to nearest-even as the [+] and [*]
      of the source do.  Request bodies are taken to carry a numeric
      [quantity] and an integer [productId], and the driver to store and
      return line items unchanged.
    - A rejected promise or a thrown exception is the [Throw] branch of
      [result]; each handler's [try { ... } catch] turns it into the 500
      response.
    - A handler is a sequence of [await]ed statements.  The two statements of
      [/add-to-cart] are also available one at a time ([add_to_cart_step]),
      so that two requests can be interleaved. *)

From Stdlib Require Import ZArith List String Bool Lia Permutation QArith.
From Stdlib Require Import Floats.PrimFloat Floats.FloatOps Floats.SpecFloat.
From Stdlib Require Import Floats.FloatAxioms.
Import ListNotations.

Local Open Scope string_scope.
Local Open Scope list_scope.
Local Open Scope Z_scope.

(** ** Exceptions and rejected promises *)

Inductive exn : Set :=
| TypeError   (* property access on [undefined], spread of [null] *)
| DbError.    (* [pool.query] rejected *)

Inductive result (A : Type) : Type :=
| Ok (a : A)
| Throw (e : exn).

Arguments Ok {A} a.
Arguments Throw {A} e.

Definition bind {A B : Type} (m : result A) (k : A -> result B) : result B :=
  match m with
  | Ok a => k a
  | Throw e => Throw e
  end.

Notation "x <- m ;; k" := (bind m (fun x => k))
  (at level 61, m at next level, right associativity).
Notation "' p <- m ;; k" := (bind m (fun x => let p := x in k))
  (at level 61, p pattern, m at next level, right associativity).

(** ** Rows and tables *)

(** The payload [jwt.sign({ id, role }, ...)] puts in a token and
    [jwt.verify] gives back: [ctx.state.user]. *)
Module Jwt.
Record payload : Set := { id : Z; role : string }.
End Jwt.

(** One element of a cart's [products] array: the object literal
    [{ productId, quantity }] built from the request body. *)
Record LineItem : Set := { productId : Z; quantity : float }.

(** A row of [shopping_carts].  The [products] column is nullable: [None] is
    SQL NULL, read by the driver as [null]. *)
Record CartRow : Set := { user_id : Z; products : option (list LineItem) }.

(** A row of the table [/calculate-total] reads prices from, under the name
    the source gives it, [your_database_table_name]; [/add-product] and
    [/products] use another table, [products], which no cart handler reads.
    [price] is the number the source multiplies, i.e. the column value as
    [*] sees it. *)
Module Price.
Record row : Set := { id : Z; price : float }.
End Price.

Record Db : Set := {
  shopping_carts : list CartRow;
  your_database_table_name : list Price.row
}.

(** ** Responses: the [ctx.status] and [ctx.body] a handler assigns *)

Inductive Body : Set :=
| Text (s : string)
| CartJson (cart : CartRow)        (* [ctx.body = cart] *)
| TotalJson (total : float)        (* [ctx.body = { total }] *)
| Undefined.                       (* [rows[0]] of an empty result *)

Record Response : Set := { status : Z; body : Body }.

Definition internal_error : Response :=
  {| status := 500; body := Text "Internal Server Error" |}.

Definition cart_not_found : Response :=
  {| status := 404; body := Text "Корзина не найдена" |}.

Definition access_denied : Response :=
  {| status := 401; body := Text "Access Denied" |}.

Definition invalid_token : Response :=
  {| status := 403; body := Text "Invalid Token" |}.

Definition no_rights : Response :=
  {| status := 403;
     body := Text "У вас нет прав для выполнения этого действия" |}.

(** [try { ... } catch (error) { ctx.status = 500; ... }]: a statement that
    throws has not changed the store. *)
Definition catch500 (db : Db) (r : result (Db * Response)) : Db * Response :=
  match r with
  | Ok out => out
  | Throw _ => (db, internal_error)
  end.

(** ** SQL statements *)

(** [SELECT * FROM shopping_carts WHERE user_id = $1] *)
Definition select_cart (userId : Z) (db : Db) : list CartRow :=
  filter (fun r => user_id r =? userId) (shopping_carts db).

(** [UPDATE shopping_carts SET products = $1 WHERE user_id = $2 RETURNING *] *)
Definition set_products (updatedProducts : list LineItem) (userId : Z)
    (r : CartRow) : CartRow :=
  if user_id r =? userId
  then {| user_id := user_id r; products := Some updatedProducts |}
  else r.

Definition update_cart (updatedProducts : list LineItem) (userId : Z)
    (db : Db) : Db * list CartRow :=
  let table := map (set_products updatedProducts userId) (shopping_carts db) in
  ({| shopping_carts := table;
      your_database_table_name := your_database_table_name db |},
   filter (fun r => user_id r =? userId) table).

(** [SELECT price FROM your_database_table_name WHERE id = $1] *)
Definition select_price (productId : Z) (db : Db) : list Price.row :=
  filter (fun r => Price.id r =? productId) (your_database_table_name db).

(** [rows[0]] as a response body. *)
Definition first_row (rows : list CartRow) : Body :=
  match rows with
  | r :: _ => CartJson r
  | [] => Undefined
  end.

(** [[...existingProducts, item]]: spreading [null] throws. *)
Definition spread (existingProducts : option (list LineItem))
    : result (list LineItem) :=
  match existingProducts with
  | Some l => Ok l
  | None => Throw TypeError
  end.

(** ** [/calculate-total] *)

(** [productInfo.rows[0].price]: reading [price] of [undefined] throws. *)
Definition first_price (rows : list Price.row) : result float :=
  match rows with
  | r :: _ => Ok (Price.price r)
  | [] => Throw TypeError
  end.

(** The callback of [products.reduce]: await the accumulator, query the
    price, read it off the first row, add. *)
Definition reduce_step (db : Db) (accPromise : result float)
    (product : LineItem) : result float :=
  acc <- accPromise ;;
  let productInfo := select_price (productId product) db in
  productPrice <- first_price productInfo ;;
  Ok (acc + productPrice * quantity product)%float.

Definition reduce_total (db : Db) (products : list LineItem) : result float :=
  fold_left (reduce_step db) products (Ok 0%float).

Definition calculate_total (user : Jwt.payload) (db : Db) : Db * Response :=
  let userId := Jwt.id user in
  match select_cart userId db with
  | [] => (db, cart_not_found)
  | cart :: _ =>
      let products := match products cart with Some l => l | None => [] end in
      catch500 db
        (total <- reduce_total db products ;;
         Ok (db, {| status := 200; body := TotalJson total |}))
  end.

(** ** [/get-cart] *)

Definition get_cart (user : Jwt.payload) (db : Db) : Db * Response :=
  let userId := Jwt.id user in
  match select_cart userId db with
  | cart :: _ => (db, {| status := 200; body := CartJson cart |})
  | [] => (db, cart_not_found)
  end.

(** ** [/add-to-cart], [/add-product] and [authenticateToken]

    The section's variables stand for what the repository does not
    contain. *)

(** Where a request is in the [/add-to-cart] handler. *)
Inductive AddPc : Set :=
| BeforeSelect
| BeforeWrite (existingCart : list CartRow)
| Responded (r : Response).

(** Two [/add-to-cart] requests of one user in flight. *)
Record Race : Set := { pcA : AddPc; pcB : AddPc; store : Db }.

Section App.

(** [jwt.verify(token, config.secret)]: the payload, or [None] when it
    throws (malformed, wrongly signed or expired token). *)
Variable verify : string -> option Jwt.payload.

(** Whether the schema of [shopping_carts] declares [user_id] unique. *)
Variable user_id_unique : bool.

(** The body of [/add-product] behind its role check: reading the uploaded
    files, the [INSERT INTO products] and the 201 response. *)
Variable insert_product : Db -> result (Db * Response).

(** [INSERT INTO shopping_carts (user_id, products) VALUES ($1, $2)
    RETURNING *] *)
Definition insert_cart (row : CartRow) (db : Db)
    : result (Db * list CartRow) :=
  if user_id_unique
     && existsb (fun r => user_id r =? user_id row) (shopping_carts db)
  then Throw DbError
  else Ok ({| shopping_carts := shopping_carts db ++ [row];
              your_database_table_name := your_database_table_name db |},
           [row]).

(** What the handler does once [existingCart] has been read. *)
Definition add_to_cart_write (userId : Z) (item : LineItem)
    (existingCart : list CartRow) (db : Db) : result (Db * Response) :=
  match existingCart with
  | [] =>
      '(db', newCartResult) <-
        insert_cart {| user_id := userId; products := Some [item] |} db ;;
      Ok (db', {| status := 200; body := first_row newCartResult |})
  | first :: _ =>
      existingProducts <- spread (products first) ;;
      let updatedProducts := existingProducts ++ [item] in
      let '(db', updatedCartResult) := update_cart updatedProducts userId db in
      Ok (db', {| status := 200; body := first_row updatedCartResult |})
  end.

(** The handler run without interruption. *)
Definition add_to_cart (user : Jwt.payload) (item : LineItem) (db : Db)
    : Db * Response :=
  let userId := Jwt.id user in
  let existingCart := select_cart userId db in
  catch500 db (add_to_cart_write userId item existingCart db).

(** The same handler, one [await pool.query] at a time. *)
Definition add_to_cart_step (userId : Z) (item : LineItem) (pc : AddPc)
    (db : Db) : AddPc * Db :=
  match pc with
  | BeforeSelect => (BeforeWrite (select_cart userId db), db)
  | BeforeWrite existingCart =>
      let out := catch500 db (add_to_cart_write userId item existingCart db) in
      (Responded (snd out), fst out)
  | Responded r => (Responded r, db)
  end.

(** [true] in a schedule lets the first request (adding [a]) run its next
    statement, [false] the second (adding [b]). *)
Definition race_step (userId : Z) (a b : LineItem) (s : Race)
    (who : bool) : Race :=
  if who
  then let next := add_to_cart_step userId a (pcA s) (store s) in
       {| pcA := fst next; pcB := pcB s; store := snd next |}
  else let next := add_to_cart_step userId b (pcB s) (store s) in
       {| pcA := pcA s; pcB := fst next; store := snd next |}.

Definition run_race (userId : Z) (a b : LineItem) (schedule : list bool)
    (db : Db) : Race :=
  fold_left (race_step userId a b) schedule
    {| pcA := BeforeSelect; pcB := BeforeSelect; store := db |}.

(** [/add-product]: [ctx.state.user.role !== 'admin'] is refused. *)
Definition add_product (user : Jwt.payload) (db : Db) : Db * Response :=
  if String.eqb (Jwt.role user) "admin"
  then catch500 db (insert_product db)
  else (db, no_rights).

(** [ctx.headers.authorization] is [None] when the header is missing;
    [!token] also holds of the empty string.  The handlers behind [next]
    catch what they throw, so the [catch] here only sees [jwt.verify]. *)
Definition authenticateToken (authorization : option string)
    (next : Jwt.payload -> Db -> Db * Response) (db : Db) : Db * Response :=
  match authorization with
  | None | Some EmptyString => (db, access_denied)
  | Some token =>
      match verify token with
      | Some user => next user db
      | None => (db, invalid_token)
      end
  end.

(** The routes: [authenticateToken] in front of each handler. *)
Definition route_add_to_cart (authorization : option string)
    (item : LineItem) : Db -> Db * Response :=
  authenticateToken authorization (fun user => add_to_cart user item).

Definition route_get_cart (authorization : option string)
    : Db -> Db * Response :=
  authenticateToken authorization get_cart.

Definition route_calculate_total (authorization : option string)
    : Db -> Db * Response :=
  authenticateToken authorization calculate_total.

Definition route_add_product (authorization : option string)
    : Db -> Db * Response :=
  authenticateToken authorization add_product.

End App.

(** The store after the write statement of a request, given the rows the
    request read earlier. *)
Definition store_after_write (user_id_unique : bool) (userId : Z)
    (item : LineItem) (existingCart : list CartRow) (db : Db) : Db :=
  fst (catch500 db
         (add_to_cart_write user_id_unique userId item existingCart db)).

(** ** The exact total the specification describes

    The value of a finite double as a rational, and the sum of price times
    quantity over the rationals. *)

Definition float_to_Q (x : float) : option Q :=
  match Prim2SF x with
  | S754_zero _ => Some 0%Q
  | S754_finite s m e =>
      Some ((if s then - inject_Z (Zpos m) else inject_Z (Zpos m))
            * Qpower 2 e)%Q
  | S754_infinity _ | S754_nan => None
  end.

Definition exact_term (db : Db) (product : LineItem) : option Q :=
  match first_price (select_price (productId product) db) with
  | Ok productPrice =>
      match float_to_Q productPrice, float_to_Q (quantity product) with
      | Some p, Some q => Some (p * q)%Q
      | _, _ => None
      end
  | Throw _ => None
  end.

Fixpoint exact_total (db : Db) (products : list LineItem) : option Q :=
  match products with
  | [] => Some 0%Q
  | product :: rest =>
      match exact_term db product, exact_total db rest with
      | Some t, Some s => Some (t + s)%Q
      | _, _ => None
      end
  end.

(** ** Vocabulary of the statements *)

(** The items of the cart a user owns: [L] when the first row the store
    returns for the user holds the array [L]; a user without a row owns the
    empty sequence. *)
Definition cart_holds (userId : Z) (db : Db) (L : list LineItem) : Prop :=
  match select_cart userId db with
  | [] => L = []
  | first :: _ => products first = Some L
  end.

Definition cart_of (userId : Z) (L : list LineItem) : CartRow :=
  {| user_id := userId; products := Some L |}.

Definition ok_cart (userId : Z) (L : list LineItem) : Response :=
  {| status := 200; body := CartJson (cart_of userId L) |}.

Definition ok_total (total : float) : Response :=
  {| status := 200; body := TotalJson total |}.

Definition respond_total (r : result float) : Response :=
  match r with
  | Ok total => ok_total total
  | Throw _ => internal_error
  end.

(** The product id of the line item matches no row of the price table. *)
Definition unresolved (db : Db) (item : LineItem) : Prop :=
  select_price (productId item) db = [].

(** The double sum of the terms price times quantity, left to right
    from 0. *)
Definition float_sum (terms : list (float * float)) : float :=
  fold_left (fun acc t => (acc + fst t * snd t)%float) terms 0%float.

(** Each of the two requests runs its two statements, in some
    interleaving. *)
Definition complete (schedule : list bool) : Prop :=
  Permutation schedule [true; true; false; false].

(** One request responds before the other starts. *)
Definition serial (schedule : list bool) : Prop :=
  schedule = [true; true; false; false] \/
  schedule = [false; false; true; true].

(** What [authenticateToken] answers to a request it does not let through:
    401 when the header is missing or empty, 403 otherwise. *)
Definition rejection (authorization : option string) : Response :=
  match authorization with
  | None | Some EmptyString => access_denied
  | Some _ => invalid_token
  end.

(** The credential is absent (no header, or an empty one) or is one that
    [jwt.verify] rejects: malformed, wrongly signed or expired. *)
Definition bad_credential (verify : string -> option Jwt.payload)
    (authorization : option string) : Prop :=
  forall token, authorization = Some token -> token = "" \/ verify token = None.

(** ** Sample data *)

Definition customer : Jwt.payload := {| Jwt.id := 7; Jwt.role := "customer" |}.

Definition empty_store : Db :=
  {| shopping_carts := []; your_database_table_name := [] |}.

(** Only the token ["customer"] verifies; ["expired"] and the rest do not. *)
Definition sample_verify (token : string) : option Jwt.payload :=
  if String.eqb token "customer" then Some customer else None.

Definition sample_insert (db : Db) : result (Db * Response) := Throw DbError.

Definition pen : LineItem := {| productId := 1; quantity := 2 |}.
Definition ink : LineItem := {| productId := 2; quantity := 1 |}.

(** Product 1 costs 10 and product 2 costs 5. *)
Definition priced_store (rows : list CartRow) : Db :=
  {| shopping_carts := rows;
     your_database_table_name :=
       [ {| Price.id := 1; Price.price := 10 |};
         {| Price.id := 2; Price.price := 5 |} ] |}.

(** Product 1 costs 2^53 and product 2 costs 1. *)
Definition large_store (rows : list CartRow) : Db :=
  {| shopping_carts := rows;
     your_database_table_name :=
       [ {| Price.id := 1; Price.price := 9007199254740992 |};
         {| Price.id := 2; Price.price := 1 |} ] |}.

Definition one_of (productId : Z) : LineItem :=
  {| productId := productId; quantity := 1 |}.

(** ** Further vocabulary: sequences of adds, requests of two users *)

(** AddToCart called once per item, each call after the previous one has
    responded. *)
Definition add_all (user_id_unique : bool) (user : Jwt.payload)
    (items : list LineItem) (db : Db) : Db :=
  fold_left (fun db item => fst (add_to_cart user_id_unique user item db))
    items db.

(** Two [/add-to-cart] requests in flight, the first of [userA] adding [a]
    and the second of [userB] adding [b]; [race_step] is the case of one
    user. *)
Definition race_step_users (user_id_unique : bool) (userA userB : Z)
    (a b : LineItem) (s : Race) (who : bool) : Race :=
  if who
  then let next :=
         add_to_cart_step user_id_unique userA a (pcA s) (store s) in
       {| pcA := fst next; pcB := pcB s; store := snd next |}
  else let next :=
         add_to_cart_step user_id_unique userB b (pcB s) (store s) in
       {| pcA := pcA s; pcB := fst next; store := snd next |}.

Definition run_race_users (user_id_unique : bool) (userA userB : Z)
    (a b : LineItem) (schedule : list bool) (db : Db) : Race :=
  fold_left (race_step_users user_id_unique userA userB a b) schedule
    {| pcA := BeforeSelect; pcB := BeforeSelect; store := db |}.

(** What holds of a request of [userId] adding [item] to a cart that held
    [L] when the request arrived, wherever the request is. *)
Definition request_on_track (userId : Z) (item : LineItem)
    (L : list LineItem) (pc : AddPc) (db : Db) : Prop :=
  match pc with
  | BeforeSelect => cart_holds userId db L
  | BeforeWrite existingCart =>
      existingCart = select_cart userId db /\ cart_holds userId db L
  | Responded r =>
      r = ok_cart userId (L ++ [item])
      /\ hd_error (select_cart userId db)
         = Some (cart_of userId (L ++ [item]))
  end.

(** ** [/register] and [/login]

    The two routes only touch the table [users], kept here as a store of
    its own.  What the request draws from outside the source is an argument
    or a variable of the section: the salt [bcrypt.hash] picks, the id the
    database gives the new row, [bcrypt.compare], [jwt.sign] and whether
    the schema declares [username] unique.  Request bodies are taken to
    carry strings. *)

Module Users.
Record row : Set :=
  { id : Z; username : string; password : string; role : string }.
End Users.

Inductive AccountBody : Set :=
| Message (s : string)
| TokenJson (token : string).      (* [ctx.body = { token }] *)

Record AccountResponse : Set :=
  { account_status : Z; account_body : AccountBody }.

Definition invalid_login : AccountResponse :=
  {| account_status := 401;
     account_body := Message "Invalid username or password" |}.

Definition account_error : AccountResponse :=
  {| account_status := 500; account_body := Message "Internal Server Error" |}.

Section Accounts.

(** [bcrypt.hash(password, 10)], as a function of the salt it draws. *)
Variable bcrypt_hash : string -> string -> string.

(** [bcrypt.compare(password, hash)] *)
Variable bcrypt_compare : string -> string -> bool.

(** [jwt.sign(payload, config.secret)] *)
Variable sign : Jwt.payload -> string.

(** Whether the schema of [users] declares [username] unique. *)
Variable username_unique : bool.

(** [SELECT * FROM users WHERE username = $1] *)
Definition select_user (username : string) (users : list Users.row)
    : list Users.row :=
  filter (fun r => String.eqb (Users.username r) username) users.

(** [INSERT INTO users (username, password, role) VALUES ($1, $2, $3)
    RETURNING *]; [new_id] is the id the database gives the row, which
    stores the three values as sent. *)
Definition insert_user (new_id : Z) (username hashedPassword role : string)
    (users : list Users.row) : result (list Users.row * list Users.row) :=
  let row := {| Users.id := new_id; Users.username := username;
                Users.password := hashedPassword; Users.role := role |} in
  if username_unique
     && existsb (fun r => String.eqb (Users.username r) username) users
  then Throw DbError
  else Ok (users ++ [row], [row]).

(** [/register]: 201 with a token for the inserted row's [id] and [role]. *)
Definition register (salt : string) (new_id : Z)
    (username password role : string) (users : list Users.row)
    : list Users.row * AccountResponse :=
  let hashedPassword := bcrypt_hash salt password in
  match insert_user new_id username hashedPassword role users with
  | Ok (users', user :: _) =>
      let token := sign {| Jwt.id := Users.id user;
                           Jwt.role := Users.role user |} in
      (users', {| account_status := 201; account_body := TokenJson token |})
  | Ok (users', []) => (users', account_error)
  | Throw _ => (users, account_error)
  end.

(** [/login]: the handler assigns no status on success, which Koa sends as
    200. *)
Definition login (username password : string) (users : list Users.row)
    : AccountResponse :=
  match select_user username users with
  | [] => invalid_login
  | user :: _ =>
      if bcrypt_compare password (Users.password user)
      then let token := sign {| Jwt.id := Users.id user;
                                Jwt.role := Users.role user |} in
           {| account_status := 200; account_body := TokenJson token |}
      else invalid_login
  end.

End Accounts.

(** ** Further sample data *)

Definition admin : Jwt.payload := {| Jwt.id := 1; Jwt.role := "admin" |}.

(** A stand-in for bcrypt: the hash is the salt followed by the password,
    and a password matches a hash that ends with it after a one-letter
    salt. *)
Definition sample_hash (salt password : string) : string :=
  (salt ++ password)%string.

Definition sample_compare (password hash : string) : bool :=
  match hash with
  | String _ rest => String.eqb rest password
  | EmptyString => false
  end.

(** A stand-in for jwt: the token spells out the role. *)
Definition sample_sign (p : Jwt.payload) : string :=
  ("t:" ++ Jwt.role p)%string.


Definition ann : Users.row :=
  {| Users.id := 1; Users.username := "ann"; Users.password := "sold";
     Users.role := "customer" |}.

(** * Facts about lists and doubles *)

Lemma filter_nil_existsb {A : Type} (f : A -> bool) (l : list A) :
  filter f l = [] -> existsb f l = false.
Proof.
  induction l as [|x l IH]; simpl; [reflexivity|].
  destruct (f x); [discriminate | exact IH].
Qed.

Lemma filter_cons_existsb {A : Type} (f : A -> bool) (l : list A) (x : A)
    (rest : list A) :
  filter f l = x :: rest -> existsb f l = true.
Proof.
  induction l as [|y l IH]; simpl; [discriminate|].
  destruct (f y); [reflexivity | exact IH].
Qed.

Lemma filter_map_stable {A : Type} (f : A -> bool) (g : A -> A)
    (l : list A) :
  (forall x, f (g x) = f x) -> filter f (map g l) = map g (filter f l).
Proof.
  intros Hfg. induction l as [|x l IH]; simpl; [reflexivity|].
  rewrite Hfg. destruct (f x); simpl; now rewrite IH.
Qed.

Lemma Prim2SF_inj (x y : float) : Prim2SF x = Prim2SF y -> x = y.
Proof.
  intros H. rewrite <- (SF2Prim_Prim2SF x), <- (SF2Prim_Prim2SF y).
  now rewrite H.
Qed.

Lemma SFadd_from_zero_swap (prec emax : Z) (s t : spec_float) :
  SFadd prec emax (SFadd prec emax (S754_zero false) s) t
  = SFadd prec emax (SFadd prec emax (S754_zero false) t) s.
Proof.
  destruct s as [ss|ss| |ss ms es], t as [st|st| |st mt et];
    try destruct ss; try destruct st; try reflexivity.
  all: cbn [SFadd]; rewrite (Z.min_comm es et); f_equal; apply Z.add_comm.
Qed.

(** Two terms added to 0 give the same double in either order. *)
Lemma add_from_zero_swap (s t : float) : (0 + s + t = 0 + t + s)%float.
Proof. apply Prim2SF_inj. rewrite !add_spec. apply SFadd_from_zero_swap. Qed.

(** * Facts about the store *)

Lemma set_products_user_id (ps : list LineItem) (userId : Z) (r : CartRow) :
  user_id (set_products ps userId r) = user_id r.
Proof. unfold set_products. now destruct (user_id r =? userId). Qed.

Lemma select_cart_update (ps : list LineItem) (userId : Z) (db : Db) :
  select_cart userId (fst (update_cart ps userId db))
  = map (fun r => cart_of userId ps) (select_cart userId db).
Proof.
  unfold select_cart, update_cart; simpl.
  rewrite filter_map_stable.
  - induction (shopping_carts db) as [|r l IH]; simpl; [reflexivity|].
    destruct (user_id r =? userId) eqn:E; simpl; [|exact IH].
    rewrite IH. unfold set_products, cart_of. rewrite E.
    apply Z.eqb_eq in E. now rewrite E.
  - intros r. now rewrite set_products_user_id.
Qed.

Lemma select_cart_app (userId : Z) (rows : list CartRow) (t : list Price.row)
    (row : CartRow) :
  select_cart userId
    {| shopping_carts := rows ++ [row]; your_database_table_name := t |}
  = select_cart userId
      {| shopping_carts := rows; your_database_table_name := t |}
    ++ (if user_id row =? userId then [row] else []).
Proof. unfold select_cart; simpl. now rewrite filter_app. Qed.

Section Store.

Variable user_id_unique : bool.
Variable userId : Z.

Local Abbreviation write := (store_after_write user_id_unique userId).

Lemma insert_cart_fresh (ps : option (list LineItem)) (db : Db) :
  select_cart userId db = [] ->
  insert_cart user_id_unique {| user_id := userId; products := ps |} db
  = Ok ({| shopping_carts :=
             shopping_carts db ++ [{| user_id := userId; products := ps |}];
           your_database_table_name := your_database_table_name db |},
        [{| user_id := userId; products := ps |}]).
Proof.
  intros H. unfold insert_cart. simpl user_id.
  unfold select_cart in H. rewrite (filter_nil_existsb _ _ H).
  now rewrite andb_false_r.
Qed.

(** An INSERT decided on an empty read, run while the store still has no
    row for the user. *)
Lemma write_fresh (item : LineItem) (db : Db) :
  select_cart userId db = [] ->
  catch500 db (add_to_cart_write user_id_unique userId item [] db)
  = (write item [] db, ok_cart userId [item])
  /\ select_cart userId (write item [] db) = [cart_of userId [item]].
Proof.
  intros Hsel. unfold store_after_write, add_to_cart_write.
  rewrite (insert_cart_fresh _ _ Hsel). cbn [bind catch500 fst].
  split; [reflexivity|].
  destruct db as [rows t]. cbn [shopping_carts your_database_table_name].
  rewrite select_cart_app, Hsel. cbn [user_id]. now rewrite Z.eqb_refl.
Qed.

(** An INSERT decided on an empty read, run after another request has
    created the cart: it is refused, or it adds a second row behind the
    first. *)
Lemma write_late (item : LineItem) (now : CartRow) (more : list CartRow)
    (db : Db) :
  select_cart userId db = now :: more ->
  hd_error (select_cart userId (write item [] db)) = Some now.
Proof.
  intros Hsel. unfold store_after_write, add_to_cart_write, insert_cart.
  cbn [user_id].
  unfold select_cart in Hsel. rewrite (filter_cons_existsb _ _ _ _ Hsel).
  destruct user_id_unique; cbn [andb bind catch500 fst].
  - unfold select_cart. now rewrite Hsel.
  - unfold select_cart. cbn [shopping_carts]. now rewrite filter_app, Hsel.
Qed.

(** An UPDATE computed from rows read earlier overwrites whatever the
    store holds by now. *)
Lemma write_over (item : LineItem) (first now : CartRow)
    (rest more : list CartRow) (L : list LineItem) (db : Db) :
  products first = Some L ->
  select_cart userId db = now :: more ->
  catch500 db (add_to_cart_write user_id_unique userId item (first :: rest) db)
  = (write item (first :: rest) db, ok_cart userId (L ++ [item]))
  /\ hd_error (select_cart userId (write item (first :: rest) db))
     = Some (cart_of userId (L ++ [item]))
  /\ your_database_table_name (write item (first :: rest) db)
     = your_database_table_name db.
Proof.
  intros HL Hnow. unfold store_after_write, add_to_cart_write.
  rewrite HL. cbn [spread bind].
  pose proof (select_cart_update (L ++ [item]) userId db) as Hupd.
  unfold update_cart in *. cbn [catch500 fst] in *.
  change (filter (fun r => user_id r =? userId)
            (map (set_products (L ++ [item]) userId) (shopping_carts db)))
    with (select_cart userId
            {| shopping_carts :=
                 map (set_products (L ++ [item]) userId) (shopping_carts db);
               your_database_table_name := your_database_table_name db |}).
  rewrite Hupd, Hnow. repeat split.
Qed.

(** One uninterrupted [/add-to-cart]: the shared core of the statements
    about appending. *)
Lemma add_to_cart_holds (user : Jwt.payload) (item : LineItem) (db : Db)
    (L : list LineItem) :
  Jwt.id user = userId ->
  cart_holds userId db L ->
  exists db',
    add_to_cart user_id_unique user item db
    = (db', ok_cart userId (L ++ [item]))
    /\ hd_error (select_cart userId db') = Some (cart_of userId (L ++ [item]))
    /\ your_database_table_name db' = your_database_table_name db.
Proof.
  intros Hid. unfold cart_holds, add_to_cart. rewrite Hid.
  destruct (select_cart userId db) as [|first rest] eqn:Hsel.
  - intros ->. destruct (write_fresh item db Hsel) as [Hw Hs].
    exists (write item [] db). rewrite Hw, Hs. repeat split.
    unfold store_after_write, add_to_cart_write.
    now rewrite (insert_cart_fresh _ _ Hsel).
  - intros HL.
    destruct (write_over item first first rest rest L db HL Hsel)
      as [Hw [Hs Ht]].
    exists (write item (first :: rest) db). now rewrite Hw.
Qed.

(** Both requests read before either writes; [x] writes first. *)
Lemma interleaved_writes (x y : LineItem) (db : Db) (L : list LineItem) :
  cart_holds userId db L ->
  let existingCart := select_cart userId db in
  let final := write y existingCart (write x existingCart db) in
  (existingCart <> [] -> cart_holds userId final (L ++ [y]))
  /\ (existingCart = [] -> cart_holds userId final [x]).
Proof.
  intros Hholds existingCart final. subst final existingCart.
  unfold cart_holds in *.
  destruct (select_cart userId db) as [|first rest] eqn:Hsel.
  - split; [easy|]. intros _.
    destruct (write_fresh x db Hsel) as [_ H1].
    pose proof (write_late y _ _ _ H1) as H2.
    destruct (select_cart userId (write y [] (write x [] db)));
      [discriminate|]. now injection H2 as ->.
  - split; [|easy]. intros _.
    destruct (write_over x first first rest rest L db Hholds Hsel)
      as [_ [H1 _]].
    destruct (select_cart userId (write x (first :: rest) db))
      as [|now more] eqn:Hnow; [discriminate|].
    destruct (write_over y first now rest more L _ Hholds Hnow)
      as [_ [H2 _]].
    destruct (select_cart userId
                (write y (first :: rest) (write x (first :: rest) db)));
      [discriminate|]. now injection H2 as ->.
Qed.

End Store.

Lemma cart_holds_first (userId : Z) (db : Db) (L : list LineItem) :
  hd_error (select_cart userId db) = Some (cart_of userId L) ->
  cart_holds userId db L.
Proof.
  unfold cart_holds. destruct (select_cart userId db); simpl.
  - discriminate.
  - now intros [= ->].
Qed.

(** One request completes before the other starts; [x] goes first. *)
Lemma serial_writes (user_id_unique : bool) (userId : Z) (x y : LineItem)
    (db : Db) (L : list LineItem) :
  cart_holds userId db L ->
  let db1 :=
    store_after_write user_id_unique userId x (select_cart userId db) db in
  let final :=
    store_after_write user_id_unique userId y (select_cart userId db1) db1 in
  cart_holds userId final (L ++ [x; y]).
Proof.
  intros Hholds db1 final.
  pose (user := {| Jwt.id := userId; Jwt.role := "" |}).
  destruct (add_to_cart_holds user_id_unique userId user x db L eq_refl Hholds)
    as [d1 [Hadd1 [Hhd1 _]]].
  assert (E1 : db1 = d1)
    by (unfold db1, store_after_write; unfold add_to_cart in Hadd1;
        simpl in Hadd1; now rewrite Hadd1).
  destruct (add_to_cart_holds user_id_unique userId user y d1 _ eq_refl
              (cart_holds_first _ _ _ Hhd1)) as [d2 [Hadd2 [Hhd2 _]]].
  assert (E2 : final = d2)
    by (unfold final, store_after_write; rewrite E1;
        unfold add_to_cart in Hadd2; simpl in Hadd2; now rewrite Hadd2).
  rewrite E2. apply cart_holds_first.
  now rewrite <- app_assoc in Hhd2.
Qed.

(** A request that runs its two statements back to back is the handler run
    without interruption. *)
Lemma step_twice_is_handler (user_id_unique : bool) (user : Jwt.payload)
    (item : LineItem) (db : Db) :
  let read := add_to_cart_step user_id_unique (Jwt.id user) item
                BeforeSelect db in
  add_to_cart_step user_id_unique (Jwt.id user) item (fst read) (snd read)
  = (Responded (snd (add_to_cart user_id_unique user item db)),
     fst (add_to_cart user_id_unique user item db)).
Proof. reflexivity. Qed.

Lemma complete_cases (schedule : list bool) :
  complete schedule ->
  serial schedule
  \/ schedule = [true; false; true; false]
  \/ schedule = [true; false; false; true]
  \/ schedule = [false; true; true; false]
  \/ schedule = [false; true; false; true].
Proof.
  unfold complete, serial. intros HP.
  pose proof (Permutation_length HP) as Hlen.
  pose proof (proj1 (Permutation_count_occ Bool.bool_dec _ _) HP true) as Hc.
  destruct schedule as [|s1 [|s2 [|s3 [|s4 [|s5 schedule]]]]];
    try discriminate Hlen.
  destruct s1, s2, s3, s4; try discriminate Hc; tauto.
Qed.

(** * Facts about the read paths *)

Lemma get_cart_first (user : Jwt.payload) (db : Db) (cart : CartRow) :
  hd_error (select_cart (Jwt.id user) db) = Some cart ->
  get_cart user db = (db, {| status := 200; body := CartJson cart |}).
Proof.
  unfold get_cart. destruct (select_cart (Jwt.id user) db); simpl.
  - discriminate.
  - now intros [= ->].
Qed.

Lemma calculate_total_respond (user : Jwt.payload) (db : Db) (cart : CartRow)
    (rest : list CartRow) (L : list LineItem) :
  select_cart (Jwt.id user) db = cart :: rest ->
  products cart = Some L ->
  calculate_total user db = (db, respond_total (reduce_total db L)).
Proof.
  intros Hsel HL. unfold calculate_total. rewrite Hsel, HL.
  now destruct (reduce_total db L).
Qed.

(** The reduce only reads the price table. *)
Lemma reduce_total_table (db1 db2 : Db) (L : list LineItem) :
  your_database_table_name db1 = your_database_table_name db2 ->
  reduce_total db1 L = reduce_total db2 L.
Proof.
  intros Ht. unfold reduce_total. generalize (Ok 0%float : result float).
  induction L as [|x L IH]; intros acc; [reflexivity|].
  simpl. rewrite IH. unfold reduce_step, select_price. now rewrite Ht.
Qed.

(** Once the accumulator is a rejected promise it stays one. *)
Lemma reduce_rejected (db : Db) (L : list LineItem) (e : exn) :
  fold_left (reduce_step db) L (Throw e) = Throw e.
Proof. induction L as [|x L IH]; simpl; [reflexivity | exact IH]. Qed.

Lemma reduce_step_resolved (db : Db) (acc p : float) (item : LineItem) :
  first_price (select_price (productId item) db) = Ok p ->
  reduce_step db (Ok acc) item = Ok (acc + p * quantity item)%float.
Proof. intros Hp. unfold reduce_step. simpl. now rewrite Hp. Qed.

Lemma reduce_step_unresolved (db : Db) (acc : result float) (item : LineItem) :
  unresolved db item ->
  exists e, reduce_step db acc item = Throw e.
Proof.
  unfold unresolved, reduce_step. intros Hun. destruct acc as [a|e]; simpl.
  - rewrite Hun. simpl. now exists TypeError.
  - now exists e.
Qed.

(** The reduce over prices that all resolve is the double sum of the terms,
    left to right. *)
Lemma reduce_resolved (db : Db) (L : list LineItem) (prices : list float)
    (acc : float) :
  Forall2 (fun item p => first_price (select_price (productId item) db) = Ok p)
    L prices ->
  fold_left (reduce_step db) L (Ok acc)
  = Ok (fold_left (fun acc t => (acc + fst t * snd t)%float)
          (combine prices (map quantity L)) acc).
Proof.
  intros H. revert acc.
  induction H as [|item p L prices Hp _ IH]; intros acc; [reflexivity|].
  cbn [fold_left map combine].
  rewrite (reduce_step_resolved db acc p item Hp). apply IH.
Qed.

(** The reduce either resolves every item or is rejected because of one
    that does not resolve. *)
Lemma reduce_cases (db : Db) (L : list LineItem) (acc : float) :
  (exists total, fold_left (reduce_step db) L (Ok acc) = Ok total
                 /\ Forall (fun item => ~ unresolved db item) L)
  \/ (exists e, fold_left (reduce_step db) L (Ok acc) = Throw e
                /\ Exists (unresolved db) L).
Proof.
  revert acc. induction L as [|x L IH]; intros acc.
  - left. exists acc. now split.
  - cbn [fold_left].
    destruct (select_price (productId x) db) as [|r rows] eqn:Hx.
    + destruct (reduce_step_unresolved db (Ok acc) x Hx) as [e ->].
      right. exists e. split; [apply reduce_rejected|].
      now apply Exists_cons_hd.
    + rewrite (reduce_step_resolved db acc (Price.price r) x)
        by now rewrite Hx.
      destruct (IH (acc + Price.price r * quantity x)%float)
        as [[total [H HF]]|[e [H HE]]].
      * left. exists total. split; [exact H|].
        constructor; [|exact HF]. unfold unresolved. now rewrite Hx.
      * right. exists e. split; [exact H|]. now apply Exists_cons_tl.
Qed.

Lemma respond_total_fails (db : Db) (L : list LineItem) :
  respond_total (reduce_total db L) = internal_error
  <-> Exists (unresolved db) L.
Proof.
  unfold reduce_total.
  destruct (reduce_cases db L 0%float) as [[total [H HF]]|[e [H HE]]];
    rewrite H; simpl.
  - split; [discriminate|]. intros HE.
    apply Exists_exists in HE. destruct HE as [item [Hin Hun]].
    rewrite Forall_forall in HF. now destruct (HF item Hin).
  - now split.
Qed.

Lemma respond_total_succeeds (db : Db) (L : list LineItem) :
  respond_total (reduce_total db L) = internal_error
  \/ exists total, respond_total (reduce_total db L) = ok_total total.
Proof.
  destruct (reduce_total db L) as [total|e]; [right | now left].
  now exists total.
Qed.

Lemma unresolved_permuted (db : Db) (L1 L2 : list LineItem) :
  Permutation L1 L2 ->
  Exists (unresolved db) L1 -> Exists (unresolved db) L2.
Proof.
  intros HP HE. apply Exists_exists in HE. destruct HE as [item [Hin Hun]].
  apply Exists_exists. exists item. split; [|exact Hun].
  now apply (Permutation_in item HP).
Qed.

Lemma respond_total_pair (db : Db) (x y : LineItem) :
  respond_total (reduce_total db [x; y])
  = respond_total (reduce_total db [y; x]).
Proof.
  unfold reduce_total. cbn [fold_left]. unfold reduce_step. cbn [bind].
  destruct (first_price (select_price (productId x) db)) as [px|ex];
    destruct (first_price (select_price (productId y) db)) as [py|ey];
    cbn [bind respond_total]; try reflexivity.
  now rewrite add_from_zero_swap.
Qed.

(** * Facts about [authenticateToken] *)

Lemma authenticateToken_rejects (verify : string -> option Jwt.payload)
    (authorization : option string)
    (next : Jwt.payload -> Db -> Db * Response) (db : Db) :
  bad_credential verify authorization ->
  authenticateToken verify authorization next db
  = (db, rejection authorization).
Proof.
  unfold bad_credential, authenticateToken, rejection.
  destruct authorization as [[|c token]|]; intros H; try reflexivity.
  destruct (H _ eq_refl) as [H'| ->]; [discriminate | reflexivity].
Qed.

Lemma authenticateToken_passes (verify : string -> option Jwt.payload)
    (token : string) (user : Jwt.payload)
    (next : Jwt.payload -> Db -> Db * Response) (db : Db) :
  token <> "" ->
  verify token = Some user ->
  authenticateToken verify (Some token) next db = next user db.
Proof.
  unfold authenticateToken. destruct token as [|c token]; [easy|].
  now intros _ ->.
Qed.

(** * Properties of the handlers *)

(** C1. Starting from an empty cart, AddToCart of X with quantity 2 and then
    of Y with quantity 1, where the price query resolves X to 10 and Y to 5,
    makes CalculateTotal respond 200 with total 25. *)
Theorem scenario_two_adds_total_25 (user_id_unique : bool)
    (user : Jwt.payload) (X Y : Z) (db : Db) :
  cart_holds (Jwt.id user) db [] ->
  first_price (select_price X db) = Ok 10%float ->
  first_price (select_price Y db) = Ok 5%float ->
  let db1 := fst (add_to_cart user_id_unique user
                    {| productId := X; quantity := 2 |} db) in
  let db2 := fst (add_to_cart user_id_unique user
                    {| productId := Y; quantity := 1 |} db1) in
  calculate_total user db2 = (db2, ok_total 25).
Proof.
  intros Hempty HX HY db1 db2.
  destruct (add_to_cart_holds user_id_unique (Jwt.id user) user
              {| productId := X; quantity := 2 |} db [] eq_refl Hempty)
    as [d1 [Hadd1 [Hhd1 Ht1]]].
  assert (E1 : db1 = d1) by (unfold db1; now rewrite Hadd1).
  destruct (add_to_cart_holds user_id_unique (Jwt.id user) user
              {| productId := Y; quantity := 1 |} d1 _ eq_refl
              (cart_holds_first _ _ _ Hhd1))
    as [d2 [Hadd2 [Hhd2 Ht2]]].
  assert (E2 : db2 = d2) by (unfold db2; now rewrite E1, Hadd2).
  rewrite E2. clear db1 db2 E1 E2.
  assert (HX2 : first_price (select_price X d2) = Ok 10%float)
    by (unfold select_price in *; now rewrite Ht2, Ht1).
  assert (HY2 : first_price (select_price Y d2) = Ok 5%float)
    by (unfold select_price in *; now rewrite Ht2, Ht1).
  destruct (select_cart (Jwt.id user) d2) as [|cart rest] eqn:Hsel;
    [discriminate|]. injection Hhd2 as ->.
  rewrite (calculate_total_respond user d2 _ rest _ Hsel eq_refl).
  unfold reduce_total. cbn [fold_left app].
  rewrite (reduce_step_resolved d2 _ 10 {| productId := X; quantity := 2 |} HX2).
  rewrite (reduce_step_resolved d2 _ 5 {| productId := Y; quantity := 1 |} HY2).
  reflexivity.
Qed.

(** The scenario on a store whose price table lists product 1 at 10 and
    product 2 at 5, for a user without a cart. *)
Lemma scenario_two_adds_total_25_witness :
  let db1 := fst (add_to_cart true customer pen (priced_store [])) in
  let db2 := fst (add_to_cart true customer ink db1) in
  cart_holds (Jwt.id customer) (priced_store []) []
  /\ calculate_total customer db2 = (db2, ok_total 25).
Proof.
  split; [reflexivity|].
  apply (scenario_two_adds_total_25 true customer 1 2 (priced_store []));
    reflexivity.
Defined.

(** C2, as the code has it. The handler reads the cart and writes it back
    as two separate statements, with no transaction around them.  When two
    AddToCart calls of one user do not overlap, both line items end up in
    the stored cart, in call order.  When their statements interleave, one
    update is lost: if a cart was already stored, it ends up holding the old
    items followed only by the item of the call that wrote last; if none
    was, the cart the store returns for the user holds only the item of the
    call that wrote first. *)
Theorem add_to_cart_race_outcome (user_id_unique : bool) (userId : Z)
    (a b : LineItem) (db : Db) (L : list LineItem) (schedule : list bool) :
  cart_holds userId db L ->
  complete schedule ->
  let final := store (run_race user_id_unique userId a b schedule db) in
  let last_writer := if last schedule true then a else b in
  let first_writer := if last schedule true then b else a in
  (schedule = [true; true; false; false] ->
   cart_holds userId final (L ++ [a; b]))
  /\ (schedule = [false; false; true; true] ->
      cart_holds userId final (L ++ [b; a]))
  /\ (~ serial schedule -> select_cart userId db <> [] ->
      cart_holds userId final (L ++ [last_writer]))
  /\ (~ serial schedule -> select_cart userId db = [] ->
      cart_holds userId final [first_writer]).
Proof.
  intros Hholds Hc final last_writer first_writer.
  pose proof (interleaved_writes user_id_unique userId a b db L Hholds) as Hab.
  pose proof (interleaved_writes user_id_unique userId b a db L Hholds) as Hba.
  pose proof (serial_writes user_id_unique userId a b db L Hholds) as Sab.
  pose proof (serial_writes user_id_unique userId b a db L Hholds) as Sba.
  cbv zeta in Hab, Hba, Sab, Sba.
  destruct (complete_cases schedule Hc) as [[E|E]|[E|[E|[E|E]]]];
    subst schedule; subst final last_writer first_writer;
    (repeat split; [intros E | intros E | intros NS HS | intros NS HS]);
    try discriminate E;
    try (exfalso; apply NS; unfold serial; now auto);
    try exact Sab; try exact Sba;
    try (now apply Hab); try (now apply Hba).
Qed.

(** Two requests of a user whose cart holds [pen], the first adding [ink]
    and the second adding [pen] again, each reading before either writes:
    the cart ends up as [pen] followed by the second request's item. *)
Lemma add_to_cart_race_outcome_witness :
  let db := priced_store [cart_of 7 [pen]] in
  let schedule := [true; false; true; false] in
  cart_holds 7 db [pen]
  /\ complete schedule
  /\ cart_holds 7 (store (run_race true 7 ink pen schedule db)) [pen; pen].
Proof.
  assert (Hc : complete [true; false; true; false])
    by (unfold complete; apply perm_skip, perm_swap).
  split; [reflexivity|]. split; [exact Hc|].
  refine (proj1 (proj2 (proj2
            (add_to_cart_race_outcome true 7 ink pen
               (priced_store [cart_of 7 [pen]]) [pen]
               [true; false; true; false] eq_refl Hc))) _ _).
  - unfold serial. intros [H|H]; discriminate H.
  - discriminate.
Defined.

(** C2 fails as stated: two AddToCart calls of a new user that both read
    before either writes leave a cart of one item, with a unique [user_id]
    (the second INSERT is refused and answered 500) and without (a second
    row is added, and the first is the one returned); and on an existing
    cart the first call's item is overwritten by the second call's UPDATE
    although both were answered 200. *)
Lemma add_to_cart_race_loses_update :
  let schedule := [true; false; true; false] in
  let fresh unique := run_race unique 7 pen ink schedule empty_store in
  let stored := run_race true 7 ink pen schedule
                  (priced_store [cart_of 7 [pen]]) in
  (snd (get_cart customer (store (fresh true))) = ok_cart 7 [pen]
   /\ pcA (fresh true) = Responded (ok_cart 7 [pen])
   /\ pcB (fresh true) = Responded internal_error)
  /\ (snd (get_cart customer (store (fresh false))) = ok_cart 7 [pen]
      /\ pcA (fresh false) = Responded (ok_cart 7 [pen])
      /\ pcB (fresh false) = Responded (ok_cart 7 [ink]))
  /\ (snd (get_cart customer (store stored)) = ok_cart 7 [pen; pen]
      /\ pcA stored = Responded (ok_cart 7 [pen; ink])
      /\ pcB stored = Responded (ok_cart 7 [pen; pen])).
Proof. repeat split. Qed.

(** C3, as the code has it. AddToCart does not validate the quantity: with
    quantity 0, for a user whose cart holds [L] (the empty sequence when no
    cart is stored yet), it stores [L] followed by [{product_id, 0}] and
    responds 200 with the updated cart. *)
Theorem add_to_cart_zero_quantity_appended (user_id_unique : bool)
    (user : Jwt.payload) (product_id : Z) (db : Db) (L : list LineItem) :
  cart_holds (Jwt.id user) db L ->
  let item := {| productId := product_id; quantity := 0 |} in
  exists db',
    add_to_cart user_id_unique user item db
    = (db', ok_cart (Jwt.id user) (L ++ [item]))
    /\ get_cart user db' = (db', ok_cart (Jwt.id user) (L ++ [item])).
Proof.
  intros Hholds item.
  destruct (add_to_cart_holds user_id_unique (Jwt.id user) user item db L
              eq_refl Hholds) as [db' [Hadd [Hhd _]]].
  exists db'. split; [exact Hadd|]. now apply get_cart_first.
Qed.

Lemma add_to_cart_zero_quantity_appended_witness :
  let item := {| productId := 1; quantity := 0 |} in
  cart_holds 7 (priced_store [cart_of 7 [pen]]) [pen]
  /\ exists db',
       add_to_cart true customer item (priced_store [cart_of 7 [pen]])
       = (db', ok_cart 7 [pen; item])
       /\ get_cart customer db' = (db', ok_cart 7 [pen; item]).
Proof.
  split; [reflexivity|].
  apply (add_to_cart_zero_quantity_appended true customer 1
           (priced_store [cart_of 7 [pen]]) [pen]).
  reflexivity.
Defined.

(** C3 fails as stated: AddToCart with quantity 0 for a user without a cart
    is answered 200, and it creates the cart with the zero-quantity item. *)
Lemma add_to_cart_accepts_zero_quantity :
  let item := {| productId := 1; quantity := 0 |} in
  let out := add_to_cart true customer item empty_store in
  snd out = ok_cart 7 [item]
  /\ fst out <> empty_store
  /\ select_cart 7 empty_store = []
  /\ select_cart 7 (fst out) = [cart_of 7 [item]].
Proof. repeat split. discriminate. Qed.

(** C4. When the cart contains a line item whose product id matches no row
    of the price table, CalculateTotal fails as a whole: it responds with
    the 500 failure and no total, neither a total that counts the item as
    zero nor the sum of the other items. *)
Theorem calculate_total_fails_on_unresolved (user : Jwt.payload) (db : Db)
    (cart : CartRow) (rest : list CartRow) (L : list LineItem)
    (item : LineItem) :
  select_cart (Jwt.id user) db = cart :: rest ->
  products cart = Some L ->
  In item L ->
  unresolved db item ->
  calculate_total user db = (db, internal_error)
  /\ forall total, body (snd (calculate_total user db)) <> TotalJson total.
Proof.
  intros Hsel HL Hin Hun.
  assert (H : calculate_total user db = (db, internal_error)).
  { rewrite (calculate_total_respond user db cart rest L Hsel HL).
    f_equal. apply respond_total_fails, Exists_exists. now exists item. }
  split; [exact H|]. intros total. rewrite H. discriminate.
Qed.

(** A cart of [pen], an item of product 3 that has no price, and [ink]. *)
Lemma calculate_total_fails_on_unresolved_witness :
  let db := priced_store [cart_of 7 [pen; one_of 3; ink]] in
  unresolved db (one_of 3)
  /\ calculate_total customer db = (db, internal_error).
Proof.
  split; [reflexivity|].
  refine (proj1 (calculate_total_fails_on_unresolved customer
                   (priced_store [cart_of 7 [pen; one_of 3; ink]])
                   (cart_of 7 [pen; one_of 3; ink]) []
                   [pen; one_of 3; ink] (one_of 3) eq_refl eq_refl _ eq_refl)).
  simpl. auto.
Defined.

(** C5. For a user with no cart row, GetCart responds with the "no cart"
    outcome (404, cart not found), which is neither the 500 failure nor a
    200 carrying a cart, and CalculateTotal responds with the same outcome
    rather than a total. *)
Theorem no_cart_outcome (user : Jwt.payload) (db : Db) :
  select_cart (Jwt.id user) db = [] ->
  get_cart user db = (db, cart_not_found)
  /\ calculate_total user db = (db, cart_not_found)
  /\ cart_not_found <> internal_error
  /\ (forall L, cart_not_found <> ok_cart (Jwt.id user) L)
  /\ (forall total, cart_not_found <> ok_total total).
Proof.
  intros Hsel. unfold get_cart, calculate_total. rewrite Hsel.
  repeat split; intros; discriminate.
Qed.

Lemma no_cart_outcome_witness :
  select_cart 7 (priced_store [cart_of 8 [pen]]) = []
  /\ get_cart customer (priced_store [cart_of 8 [pen]])
     = (priced_store [cart_of 8 [pen]], cart_not_found)
  /\ calculate_total customer (priced_store [cart_of 8 [pen]])
     = (priced_store [cart_of 8 [pen]], cart_not_found).
Proof.
  split; [reflexivity|].
  destruct (no_cart_outcome customer (priced_store [cart_of 8 [pen]]) eq_refl)
    as [Hget [Htotal _]].
  split; [exact Hget | exact Htotal].
Defined.

(** C6. For a user whose stored cart holds the items [L], one AddToCart
    stores [L] followed by the new line item [{product_id, quantity}],
    whatever products [L] already mentions, and responds with the updated
    cart: the response is 200 with that cart, and GetCart afterwards returns
    the same cart. *)
Theorem add_to_cart_appends_line_item (user_id_unique : bool)
    (user : Jwt.payload) (item : LineItem) (db : Db)
    (first : CartRow) (rest : list CartRow) (L : list LineItem) :
  select_cart (Jwt.id user) db = first :: rest ->
  products first = Some L ->
  exists db',
    add_to_cart user_id_unique user item db
    = (db', ok_cart (Jwt.id user) (L ++ [item]))
    /\ get_cart user db' = (db', ok_cart (Jwt.id user) (L ++ [item])).
Proof.
  intros Hsel HL.
  destruct (add_to_cart_holds user_id_unique (Jwt.id user) user item db L
              eq_refl) as [db' [Hadd [Hhd _]]].
  - unfold cart_holds. now rewrite Hsel.
  - exists db'. split; [exact Hadd|]. now apply get_cart_first.
Qed.

(** Adding product 1 again to a cart that already lists product 1 gives two
    line items for it. *)
Lemma add_to_cart_appends_line_item_witness :
  let db := priced_store [cart_of 7 [pen; ink]] in
  select_cart 7 db = [cart_of 7 [pen; ink]]
  /\ exists db',
       add_to_cart true customer (one_of 1) db
       = (db', ok_cart 7 [pen; ink; one_of 1])
       /\ get_cart customer db' = (db', ok_cart 7 [pen; ink; one_of 1]).
Proof.
  split; [reflexivity|].
  apply (add_to_cart_appends_line_item true customer (one_of 1)
           (priced_store [cart_of 7 [pen; ink]])
           (cart_of 7 [pen; ink]) [] [pen; ink]); reflexivity.
Defined.

(** C7, as the code has it. CalculateTotal accumulates price times quantity
    into the running sum in double (binary64) arithmetic: when every line
    item resolves to a price, the response is 200 with the double sum of the
    products, taken left to right from 0, each product and each partial sum
    rounded. *)
Theorem calculate_total_double_sum (user : Jwt.payload) (db : Db)
    (cart : CartRow) (rest : list CartRow) (L : list LineItem)
    (prices : list float) :
  select_cart (Jwt.id user) db = cart :: rest ->
  products cart = Some L ->
  Forall2 (fun item p => first_price (select_price (productId item) db) = Ok p)
    L prices ->
  calculate_total user db
  = (db, ok_total (float_sum (combine prices (map quantity L)))).
Proof.
  intros Hsel HL Hprices.
  rewrite (calculate_total_respond user db cart rest L Hsel HL).
  unfold reduce_total. now rewrite (reduce_resolved db L prices).
Qed.

Lemma calculate_total_double_sum_witness :
  let db := priced_store [cart_of 7 [pen; ink]] in
  select_cart 7 db = [cart_of 7 [pen; ink]]
  /\ calculate_total customer db
     = (db, ok_total (float_sum [(10, 2); (5, 1)]%float)).
Proof.
  split; [reflexivity|].
  apply (calculate_total_double_sum customer
           (priced_store [cart_of 7 [pen; ink]])
           (cart_of 7 [pen; ink]) [] [pen; ink] [10; 5]%float);
    try reflexivity.
  repeat constructor.
Defined.

(** C7 fails as stated: with prices 2^53 and 1 and quantity 1 each, the
    exact total is 2^53 + 1, and CalculateTotal responds with 2^53. *)
Lemma calculate_total_rounds :
  let L := [one_of 1; one_of 2] in
  let db := large_store [cart_of 7 L] in
  snd (calculate_total customer db) = ok_total 9007199254740992
  /\ option_map Qred (float_to_Q 9007199254740992)
     = Some (9007199254740992 # 1)%Q
  /\ option_map Qred (exact_total db L) = Some (9007199254740993 # 1)%Q.
Proof. repeat split. Qed.

(** C8, as the code has it. Permuting the items of a cart does not change
    whether CalculateTotal fails: over the permuted cart it gives the 500
    failure exactly when it does over the original, and a 200 with a total
    exactly when the original does.  For a cart of at most two items the
    whole response, total included, is the same.  (For longer carts the two
    totals are double sums of the same terms in a different order.) *)
Theorem calculate_total_permuted (user : Jwt.payload) (db1 db2 : Db)
    (c1 c2 : CartRow) (r1 r2 : list CartRow) (L1 L2 : list LineItem) :
  your_database_table_name db1 = your_database_table_name db2 ->
  select_cart (Jwt.id user) db1 = c1 :: r1 -> products c1 = Some L1 ->
  select_cart (Jwt.id user) db2 = c2 :: r2 -> products c2 = Some L2 ->
  Permutation L1 L2 ->
  let response1 := snd (calculate_total user db1) in
  let response2 := snd (calculate_total user db2) in
  (response1 = internal_error <-> response2 = internal_error)
  /\ ((exists total, response1 = ok_total total)
      <-> (exists total, response2 = ok_total total))
  /\ ((List.length L1 <= 2)%nat -> response1 = response2).
Proof.
  intros Ht Hs1 Hp1 Hs2 Hp2 HP response1 response2.
  unfold response1, response2.
  rewrite (calculate_total_respond user db1 c1 r1 L1 Hs1 Hp1).
  rewrite (calculate_total_respond user db2 c2 r2 L2 Hs2 Hp2).
  cbn [snd]. rewrite (reduce_total_table db1 db2 L1 Ht).
  assert (Hfail : respond_total (reduce_total db2 L1) = internal_error
                  <-> respond_total (reduce_total db2 L2) = internal_error).
  { rewrite !respond_total_fails. split; apply unresolved_permuted;
      [exact HP | now apply Permutation_sym]. }
  split; [exact Hfail|]. split.
  - destruct (respond_total_succeeds db2 L1) as [H1|[t1 H1]];
      destruct (respond_total_succeeds db2 L2) as [H2|[t2 H2]];
      rewrite H1, H2.
    + split; intros [t H]; discriminate.
    + apply Hfail in H1. rewrite H1 in H2. discriminate.
    + apply Hfail in H2. rewrite H2 in H1. discriminate.
    + split; intros _; eauto.
  - intros Hlen.
    destruct L1 as [|x [|y [|z L1]]]; simpl in Hlen; [| | |lia].
    + now apply Permutation_nil in HP as ->.
    + now apply Permutation_length_1_inv in HP as ->.
    + apply Permutation_length_2_inv in HP as [-> | ->];
        [reflexivity | apply respond_total_pair].
Qed.

(** The cart of [pen] and [ink] against the cart of [ink] and [pen]. *)
Lemma calculate_total_permuted_witness :
  let db1 := priced_store [cart_of 7 [pen; ink]] in
  let db2 := priced_store [cart_of 7 [ink; pen]] in
  Permutation [pen; ink] [ink; pen]
  /\ snd (calculate_total customer db1) = snd (calculate_total customer db2).
Proof.
  split; [apply perm_swap|].
  refine (proj2 (proj2
            (calculate_total_permuted customer
               (priced_store [cart_of 7 [pen; ink]])
               (priced_store [cart_of 7 [ink; pen]])
               (cart_of 7 [pen; ink]) (cart_of 7 [ink; pen]) [] []
               [pen; ink] [ink; pen]
               eq_refl eq_refl eq_refl eq_refl eq_refl
               (perm_swap ink pen []))) _).
  simpl. lia.
Defined.

(** C8 fails as stated: with prices 2^53 and 1, the cart listing the
    expensive product before two items of the cheap one totals 2^53, and
    the same items with the expensive product last total 2^53 + 2. *)
Lemma calculate_total_order_matters :
  let L1 := [one_of 1; one_of 2; one_of 2] in
  let L2 := [one_of 2; one_of 2; one_of 1] in
  Permutation L1 L2
  /\ snd (calculate_total customer (large_store [cart_of 7 L1]))
     = ok_total 9007199254740992
  /\ snd (calculate_total customer (large_store [cart_of 7 L2]))
     = ok_total 9007199254740994
  /\ ok_total 9007199254740992 <> ok_total 9007199254740994.
Proof.
  split; [|repeat split].
  - exact (Permutation_cons_append [one_of 2; one_of 2] (one_of 1)).
  - unfold ok_total. intros H.
    apply (f_equal (fun r => match body r with
                             | TotalJson total => Prim2SF total
                             | _ => S754_nan
                             end)) in H.
    vm_compute in H. discriminate H.
Qed.

(** C9, as the code has it. A cart request whose credential is absent is
    answered 401 "Access Denied"; one whose credential is present but
    rejected by verification (invalid or expired) is answered 403
    "Invalid Token", the status [/add-product] also uses to refuse a
    principal that is not an admin, with a different body.  Either way the
    store is untouched.  A verified request reaches the cart handler, whose
    outcome does not depend on the principal's role. *)
Theorem cart_routes_authentication (verify : string -> option Jwt.payload)
    (user_id_unique : bool) (insert_product : Db -> result (Db * Response))
    (authorization : option string) (item : LineItem) (db : Db) :
  bad_credential verify authorization ->
  (route_add_to_cart verify user_id_unique authorization item db
   = (db, rejection authorization)
   /\ route_get_cart verify authorization db = (db, rejection authorization)
   /\ route_calculate_total verify authorization db
      = (db, rejection authorization))
  /\ (rejection authorization = access_denied
      \/ rejection authorization = invalid_token)
  /\ (forall token user,
        token <> "" -> verify token = Some user ->
        Jwt.role user <> "admin" ->
        route_add_product verify insert_product (Some token) db
        = (db, no_rights)
        /\ status no_rights = status invalid_token
        /\ no_rights <> invalid_token)
  /\ (forall token user,
        token <> "" -> verify token = Some user ->
        route_add_to_cart verify user_id_unique (Some token) item db
        = add_to_cart user_id_unique user item db
        /\ route_get_cart verify (Some token) db = get_cart user db
        /\ route_calculate_total verify (Some token) db
           = calculate_total user db)
  /\ (forall user r,
        let other := {| Jwt.id := Jwt.id user; Jwt.role := r |} in
        add_to_cart user_id_unique other item db
        = add_to_cart user_id_unique user item db
        /\ get_cart other db = get_cart user db
        /\ calculate_total other db = calculate_total user db).
Proof.
  intros Hbad. repeat split.
  - now apply authenticateToken_rejects.
  - now apply authenticateToken_rejects.
  - now apply authenticateToken_rejects.
  - unfold rejection. destruct authorization as [[|c token]|]; auto.
  - unfold route_add_product.
    rewrite (authenticateToken_passes verify token user); auto.
    unfold add_product. destruct (String.eqb_spec (Jwt.role user) "admin");
      [contradiction | reflexivity].
  - discriminate.
  - unfold route_add_to_cart.
    now rewrite (authenticateToken_passes verify token user).
  - unfold route_get_cart. now apply authenticateToken_passes.
  - unfold route_calculate_total. now apply authenticateToken_passes.
Qed.

(** A token that does not verify, sent to [/get-cart]. *)
Lemma cart_routes_authentication_witness :
  bad_credential sample_verify (Some "expired")
  /\ route_get_cart sample_verify (Some "expired") empty_store
     = (empty_store, invalid_token).
Proof.
  assert (Hbad : bad_credential sample_verify (Some "expired"))
    by (intros token [= <-]; right; reflexivity).
  split; [exact Hbad|].
  exact (proj1 (proj2 (proj1
           (cart_routes_authentication sample_verify true sample_insert
              (Some "expired") pen empty_store Hbad)))).
Defined.

(** C9 fails as stated: a cart request with a token that does not verify is
    answered 403, not 401, on each of the three routes; 403 is also the
    status of the role refusal of [/add-product]. *)
Lemma invalid_token_is_forbidden :
  let bad := Some "expired" in
  sample_verify "expired" = None
  /\ snd (route_add_to_cart sample_verify true bad pen empty_store)
     = invalid_token
  /\ snd (route_get_cart sample_verify bad empty_store) = invalid_token
  /\ snd (route_calculate_total sample_verify bad empty_store) = invalid_token
  /\ status invalid_token = 403
  /\ status invalid_token <> status access_denied
  /\ snd (route_add_product sample_verify sample_insert (Some "customer")
            empty_store) = no_rights
  /\ status no_rights = status invalid_token.
Proof. repeat split. discriminate. Qed.

(** C10. For a user whose cart row exists with a null or empty item list,
    CalculateTotal responds 200 with total 0. *)
Theorem calculate_total_empty_cart (user : Jwt.payload) (db : Db)
    (cart : CartRow) (rest : list CartRow) :
  select_cart (Jwt.id user) db = cart :: rest ->
  products cart = None \/ products cart = Some [] ->
  calculate_total user db = (db, ok_total 0).
Proof.
  intros Hsel Hp. unfold calculate_total. rewrite Hsel.
  destruct Hp as [-> | ->]; reflexivity.
Qed.

(** A cart row whose [products] column is NULL. *)
Lemma calculate_total_empty_cart_witness :
  let db := priced_store [{| user_id := 7; products := None |}] in
  select_cart 7 db = [{| user_id := 7; products := None |}]
  /\ calculate_total customer db = (db, ok_total 0).
Proof.
  split; [reflexivity|].
  apply (calculate_total_empty_cart customer
           (priced_store [{| user_id := 7; products := None |}])
           {| user_id := 7; products := None |} []);
    [reflexivity | now left].
Defined.

(** * Further properties of the cart handlers *)

Lemma select_cart_user_id (userId : Z) (db : Db) (r : CartRow) :
  In r (select_cart userId db) -> user_id r = userId.
Proof.
  unfold select_cart. intros H. apply filter_In in H.
  now apply Z.eqb_eq.
Qed.

Lemma select_cart_update_other (ps : list LineItem) (userId other : Z)
    (db : Db) :
  other <> userId ->
  select_cart other (fst (update_cart ps userId db)) = select_cart other db.
Proof.
  intros Hne. unfold select_cart, update_cart; simpl.
  induction (shopping_carts db) as [|r l IH]; simpl; [reflexivity|].
  rewrite set_products_user_id, IH.
  destruct (user_id r =? other) eqn:E; [|reflexivity].
  unfold set_products. apply Z.eqb_eq in E.
  destruct (user_id r =? userId) eqn:E'; [|reflexivity].
  apply Z.eqb_eq in E'. congruence.
Qed.

(** The write statement of a request touches neither the rows of other
    users nor the price table, whatever rows the request had read and
    whether or not the statement succeeds. *)
Lemma write_frame (user_id_unique : bool) (userId : Z) (item : LineItem)
    (existingCart : list CartRow) (db : Db) :
  your_database_table_name
    (store_after_write user_id_unique userId item existingCart db)
  = your_database_table_name db
  /\ forall other,
       other <> userId ->
       select_cart other
         (store_after_write user_id_unique userId item existingCart db)
       = select_cart other db.
Proof.
  unfold store_after_write, add_to_cart_write.
  destruct existingCart as [|first rest].
  - unfold insert_cart. cbn [user_id].
    destruct (user_id_unique && _); cbn [bind catch500 fst]; [now split|].
    split; [reflexivity|]. intros other Hne.
    unfold select_cart. cbn [shopping_carts]. rewrite filter_app. simpl.
    destruct (Z.eqb_spec userId other); [congruence|]. apply app_nil_r.
  - destruct (products first) as [L|]; cbn [spread bind catch500 fst];
      [|now split].
    pose proof (fun other =>
                  select_cart_update_other (L ++ [item]) userId other db)
      as Hother.
    destruct (update_cart (L ++ [item]) userId db) as [db' rows] eqn:E.
    cbn [catch500 fst] in *. split.
    + unfold update_cart in E. now injection E as <- _.
    + exact Hother.
Qed.

Lemma add_to_cart_store (user_id_unique : bool) (user : Jwt.payload)
    (item : LineItem) (db : Db) :
  fst (add_to_cart user_id_unique user item db)
  = store_after_write user_id_unique (Jwt.id user) item
      (select_cart (Jwt.id user) db) db.
Proof. reflexivity. Qed.

Lemma cart_row_eta (userId : Z) (db : Db) (row : CartRow)
    (rest : list CartRow) (L : list LineItem) :
  select_cart userId db = row :: rest ->
  products row = Some L ->
  row = cart_of userId L.
Proof.
  intros Hsel HL.
  assert (Hid : user_id row = userId)
    by (apply (select_cart_user_id userId db); rewrite Hsel; now left).
  destruct row as [u p]. simpl in *. unfold cart_of. congruence.
Qed.

(** X1. AddToCart of one user changes neither the rows the store returns
    for any other user nor the price table, whether the call is answered
    200 or 500. *)
Theorem add_to_cart_isolated (user_id_unique : bool) (user : Jwt.payload)
    (item : LineItem) (db : Db) (other : Z) :
  other <> Jwt.id user ->
  select_cart other (fst (add_to_cart user_id_unique user item db))
  = select_cart other db
  /\ your_database_table_name (fst (add_to_cart user_id_unique user item db))
     = your_database_table_name db.
Proof.
  intros Hne. rewrite add_to_cart_store.
  destruct (write_frame user_id_unique (Jwt.id user) item
              (select_cart (Jwt.id user) db) db) as [Ht Ho].
  split; [now apply Ho | exact Ht].
Qed.

Lemma add_to_cart_isolated_witness :
  let db := priced_store [cart_of 8 [ink]; cart_of 7 [pen]] in
  8 <> Jwt.id customer
  /\ select_cart 8 (fst (add_to_cart true customer ink db)) = [cart_of 8 [ink]].
Proof.
  assert (Hne : 8 <> Jwt.id customer) by discriminate.
  split; [exact Hne|].
  exact (proj1 (add_to_cart_isolated true customer ink
                  (priced_store [cart_of 8 [ink]; cart_of 7 [pen]]) 8 Hne)).
Defined.

(** X2. An uninterrupted AddToCart is answered 500 exactly when the first
    row the store returns for the user has a NULL [products] column; the
    store is then unchanged.  In every other case it is answered 200 with
    the cart it stored. *)
Theorem add_to_cart_failure (user_id_unique : bool) (user : Jwt.payload)
    (item : LineItem) (db : Db) :
  let out := add_to_cart user_id_unique user item db in
  (snd out = internal_error
   <-> exists first rest,
         select_cart (Jwt.id user) db = first :: rest
         /\ products first = None)
  /\ (snd out = internal_error -> fst out = db)
  /\ (snd out <> internal_error ->
      exists L, cart_holds (Jwt.id user) db L
                /\ snd out = ok_cart (Jwt.id user) (L ++ [item])).
Proof.
  intros out. subst out.
  destruct (select_cart (Jwt.id user) db) as [|first rest] eqn:Hsel.
  - destruct (add_to_cart_holds user_id_unique (Jwt.id user) user item db []
                eq_refl) as [db' [Hadd _]];
      [unfold cart_holds; now rewrite Hsel|].
    rewrite Hadd. cbn [fst snd]. repeat split; try discriminate.
    + intros [f [r [H _]]]. discriminate H.
    + intros _. exists []. split; [|reflexivity].
      unfold cart_holds. now rewrite Hsel.
  - destruct (products first) as [L|] eqn:HL.
    + destruct (add_to_cart_holds user_id_unique (Jwt.id user) user item db L
                  eq_refl) as [db' [Hadd _]];
        [unfold cart_holds; now rewrite Hsel|].
      rewrite Hadd. cbn [fst snd]. repeat split; try discriminate.
      * intros [f [r [H H']]]. injection H as <- _. congruence.
      * intros _. exists L. split; [|reflexivity].
        unfold cart_holds. now rewrite Hsel.
    + assert (Hadd : add_to_cart user_id_unique user item db
                     = (db, internal_error)).
      { unfold add_to_cart, add_to_cart_write. rewrite Hsel, HL.
        reflexivity. }
      rewrite Hadd. cbn [fst snd]. repeat split; try easy.
      intros _. now exists first, rest.
Qed.

Lemma add_all_first (user_id_unique : bool) (user : Jwt.payload)
    (items : list LineItem) (db : Db) (L : list LineItem) :
  hd_error (select_cart (Jwt.id user) db) = Some (cart_of (Jwt.id user) L) ->
  hd_error (select_cart (Jwt.id user) (add_all user_id_unique user items db))
  = Some (cart_of (Jwt.id user) (L ++ items))
  /\ your_database_table_name (add_all user_id_unique user items db)
     = your_database_table_name db.
Proof.
  revert db L. induction items as [|item items IH]; intros db L Hhd.
  - now rewrite app_nil_r.
  - destruct (add_to_cart_holds user_id_unique (Jwt.id user) user item db L
                eq_refl (cart_holds_first _ _ _ Hhd))
      as [db' [Hadd [Hhd' Ht']]].
    unfold add_all. cbn [fold_left]. rewrite Hadd. cbn [fst].
    destruct (IH db' (L ++ [item]) Hhd') as [H Ht].
    fold (add_all user_id_unique user items db').
    rewrite <- app_assoc in H. split; [exact H | congruence].
Qed.

(** X3. AddToCart called once per item of a non-empty sequence, each call
    after the previous one has responded, leaves the cart holding the old
    items followed by all the new ones in call order, as GetCart then
    shows; the price table is unchanged. *)
Theorem add_all_appends (user_id_unique : bool) (user : Jwt.payload)
    (items : list LineItem) (db : Db) (L : list LineItem) :
  cart_holds (Jwt.id user) db L ->
  items <> [] ->
  let db' := add_all user_id_unique user items db in
  get_cart user db' = (db', ok_cart (Jwt.id user) (L ++ items))
  /\ your_database_table_name db' = your_database_table_name db.
Proof.
  intros Hholds Hne db'. subst db'.
  destruct items as [|item items]; [congruence|].
  destruct (add_to_cart_holds user_id_unique (Jwt.id user) user item db L
              eq_refl Hholds) as [d1 [Hadd [Hhd Ht]]].
  unfold add_all. cbn [fold_left]. rewrite Hadd. cbn [fst].
  fold (add_all user_id_unique user items d1).
  destruct (add_all_first user_id_unique user items d1 _ Hhd) as [H Ht'].
  rewrite <- app_assoc in H. split; [|congruence].
  now apply get_cart_first.
Qed.

Lemma add_all_appends_witness :
  let db' := add_all true customer [pen; ink; pen] (priced_store []) in
  cart_holds 7 (priced_store []) []
  /\ get_cart customer db' = (db', ok_cart 7 [pen; ink; pen]).
Proof.
  split; [reflexivity|].
  refine (proj1 (add_all_appends true customer [pen; ink; pen]
                   (priced_store []) [] eq_refl _)).
  discriminate.
Defined.

(** X4. When the store holds several rows for the user, AddToCart rewrites
    every one of them to the first row's items followed by the new item:
    the items the other rows held are gone, and the number of rows is
    unchanged. *)
Theorem add_to_cart_overwrites_all_rows (user_id_unique : bool)
    (user : Jwt.payload) (item : LineItem) (db : Db)
    (first : CartRow) (rest : list CartRow) (L : list LineItem) :
  select_cart (Jwt.id user) db = first :: rest ->
  products first = Some L ->
  select_cart (Jwt.id user) (fst (add_to_cart user_id_unique user item db))
  = map (fun _ => cart_of (Jwt.id user) (L ++ [item])) (first :: rest).
Proof.
  intros Hsel HL. unfold add_to_cart, add_to_cart_write.
  rewrite Hsel, HL. cbn [spread bind].
  pose proof (select_cart_update (L ++ [item]) (Jwt.id user) db) as Hupd.
  destruct (update_cart (L ++ [item]) (Jwt.id user) db) as [db' rows].
  cbn [catch500 fst] in *. now rewrite Hupd, Hsel.
Qed.

Lemma add_to_cart_overwrites_all_rows_witness :
  let db := priced_store [cart_of 7 [pen]; cart_of 7 [ink; ink]] in
  select_cart 7 db = [cart_of 7 [pen]; cart_of 7 [ink; ink]]
  /\ select_cart 7 (fst (add_to_cart false customer (one_of 1) db))
     = [cart_of 7 [pen; one_of 1]; cart_of 7 [pen; one_of 1]].
Proof.
  split; [reflexivity|].
  apply (add_to_cart_overwrites_all_rows false customer (one_of 1)
           (priced_store [cart_of 7 [pen]; cart_of 7 [ink; ink]])
           (cart_of 7 [pen]) [cart_of 7 [ink; ink]] [pen]); reflexivity.
Defined.

(** * Further properties of the read paths *)

Lemma read_depends_on (user : Jwt.payload) (db1 db2 : Db) :
  select_cart (Jwt.id user) db1 = select_cart (Jwt.id user) db2 ->
  your_database_table_name db1 = your_database_table_name db2 ->
  snd (get_cart user db1) = snd (get_cart user db2)
  /\ snd (calculate_total user db1) = snd (calculate_total user db2).
Proof.
  intros Hsel Ht. unfold get_cart, calculate_total. rewrite Hsel.
  destruct (select_cart (Jwt.id user) db2) as [|cart rest]; [now split|].
  split; [reflexivity|].
  rewrite (reduce_total_table db1 db2 _ Ht).
  now destruct (reduce_total db2 _).
Qed.

(** X5. The routes [/get-cart] and [/calculate-total] never change the
    store, whatever the credential and whatever they answer. *)
Theorem read_routes_leave_store (verify : string -> option Jwt.payload)
    (authorization : option string) (db : Db) :
  fst (route_get_cart verify authorization db) = db
  /\ fst (route_calculate_total verify authorization db) = db.
Proof.
  unfold route_get_cart, route_calculate_total, authenticateToken.
  destruct authorization as [[|c token]|]; try (now split).
  destruct (verify (String c token)) as [user|]; [|now split].
  unfold get_cart, calculate_total.
  destruct (select_cart (Jwt.id user) db) as [|cart rest]; [now split|].
  split; [reflexivity|].
  now destruct (reduce_total db _).
Qed.

(** X6. For a user with a stored cart, CalculateTotal is answered 500
    exactly when some line item of the cart matches no row of the price
    table; when every item matches one it is answered 200 with a total. *)
Theorem calculate_total_fails_exactly (user : Jwt.payload) (db : Db)
    (cart : CartRow) (rest : list CartRow) (L : list LineItem) :
  select_cart (Jwt.id user) db = cart :: rest ->
  products cart = Some L ->
  (snd (calculate_total user db) = internal_error
   <-> Exists (unresolved db) L)
  /\ (Forall (fun item => ~ unresolved db item) L ->
      exists total, calculate_total user db = (db, ok_total total)).
Proof.
  intros Hsel HL.
  rewrite (calculate_total_respond user db cart rest L Hsel HL). cbn [snd].
  split; [apply respond_total_fails|]. intros HF.
  destruct (respond_total_succeeds db L) as [H|[total H]].
  - apply respond_total_fails, Exists_exists in H.
    destruct H as [item [Hin Hun]]. rewrite Forall_forall in HF.
    now destruct (HF item Hin).
  - exists total. now rewrite H.
Qed.

Lemma calculate_total_fails_exactly_witness :
  let db := priced_store [cart_of 7 [pen; ink]] in
  Forall (fun item => ~ unresolved db item) [pen; ink]
  /\ exists total, calculate_total customer db = (db, ok_total total).
Proof.
  assert (HF : Forall (fun item =>
                         ~ unresolved (priced_store [cart_of 7 [pen; ink]])
                             item) [pen; ink])
    by (repeat constructor; discriminate).
  split; [exact HF|].
  exact (proj2 (calculate_total_fails_exactly customer
                  (priced_store [cart_of 7 [pen; ink]])
                  (cart_of 7 [pen; ink]) [] [pen; ink] eq_refl eq_refl) HF).
Defined.

(** X7. AddToCart of another user changes neither what GetCart nor what
    CalculateTotal answers to this user. *)
Theorem reads_ignore_other_adds (user_id_unique : bool)
    (user other : Jwt.payload) (item : LineItem) (db : Db) :
  Jwt.id other <> Jwt.id user ->
  let db' := fst (add_to_cart user_id_unique other item db) in
  snd (get_cart user db') = snd (get_cart user db)
  /\ snd (calculate_total user db') = snd (calculate_total user db).
Proof.
  intros Hne db'. subst db'. rewrite add_to_cart_store.
  destruct (write_frame user_id_unique (Jwt.id other) item
              (select_cart (Jwt.id other) db) db) as [Ht Ho].
  apply read_depends_on; [apply Ho; congruence | exact Ht].
Qed.

Lemma reads_ignore_other_adds_witness :
  let db := priced_store [cart_of 7 [pen]] in
  let db' := fst (add_to_cart true admin ink db) in
  Jwt.id admin <> Jwt.id customer
  /\ snd (calculate_total customer db') = ok_total 20.
Proof.
  assert (Hne : Jwt.id admin <> Jwt.id customer) by discriminate.
  split; [exact Hne|].
  exact (proj2 (reads_ignore_other_adds true customer admin ink
                  (priced_store [cart_of 7 [pen]]) Hne)).
Defined.




(** X9. A cart that contains a line item matching no row of the price
    table stays unpriceable: after any further sequence of AddToCart calls
    CalculateTotal is still answered 500.  (No route removes an item.) *)
Theorem unresolved_item_stays (user_id_unique : bool) (user : Jwt.payload)
    (items : list LineItem) (db : Db) (cart : CartRow)
    (rest : list CartRow) (L : list LineItem) :
  select_cart (Jwt.id user) db = cart :: rest ->
  products cart = Some L ->
  Exists (unresolved db) L ->
  let db' := add_all user_id_unique user items db in
  calculate_total user db' = (db', internal_error).
Proof.
  intros Hsel HL HE db'. subst db'.
  assert (Hhd : hd_error (select_cart (Jwt.id user) db)
                = Some (cart_of (Jwt.id user) L))
    by (rewrite Hsel; simpl; f_equal;
        exact (cart_row_eta _ _ _ _ _ Hsel HL)).
  destruct (add_all_first user_id_unique user items db L Hhd) as [H Ht].
  destruct (select_cart (Jwt.id user) (add_all user_id_unique user items db))
    as [|cart' rest'] eqn:Hsel'; [discriminate|]. injection H as ->.
  rewrite (calculate_total_respond user _ _ rest' _ Hsel' eq_refl).
  f_equal. rewrite (reduce_total_table _ db _ Ht).
  apply respond_total_fails, Exists_app. now left.
Qed.

Lemma unresolved_item_stays_witness :
  let db := priced_store [cart_of 7 [one_of 3]] in
  let db' := add_all true customer [pen; ink] db in
  Exists (unresolved db) [one_of 3]
  /\ calculate_total customer db' = (db', internal_error).
Proof.
  assert (HE : Exists (unresolved (priced_store [cart_of 7 [one_of 3]]))
                 [one_of 3]) by (left; reflexivity).
  split; [exact HE|].
  exact (unresolved_item_stays true customer [pen; ink]
           (priced_store [cart_of 7 [one_of 3]])
           (cart_of 7 [one_of 3]) [] [one_of 3] eq_refl eq_refl HE).
Defined.

(** * Further properties of requests in flight *)

Section Flight.

Variable user_id_unique : bool.

Local Abbreviation step := (add_to_cart_step user_id_unique).
Local Abbreviation written := (add_to_cart_write user_id_unique).

Lemma on_track_select (userId : Z) (item : LineItem) (L : list LineItem)
    (pc : AddPc) (db1 db2 : Db) :
  select_cart userId db1 = select_cart userId db2 ->
  request_on_track userId item L pc db1 ->
  request_on_track userId item L pc db2.
Proof.
  intros Hsel. unfold request_on_track, cart_holds. rewrite Hsel.
  now destruct pc.
Qed.

(** A request's own statement keeps it on track. *)
Lemma step_on_track (userId : Z) (item : LineItem) (L : list LineItem)
    (pc : AddPc) (db : Db) :
  request_on_track userId item L pc db ->
  request_on_track userId item L
    (fst (step userId item pc db)) (snd (step userId item pc db)).
Proof.
  destruct pc as [|existingCart|r]; cbn [add_to_cart_step fst snd].
  - intros H. now split.
  - intros [-> Hholds].
    destruct (add_to_cart_holds user_id_unique userId
                {| Jwt.id := userId; Jwt.role := "" |} item db L eq_refl
                Hholds) as [db' [Hadd [Hhd _]]].
    unfold add_to_cart in Hadd. cbn [Jwt.id] in Hadd. rewrite Hadd.
    now split.
  - trivial.
Qed.

(** A statement of another user's request leaves this one on track. *)
Lemma step_on_track_other (userId other : Z) (item item' : LineItem)
    (L : list LineItem) (pc pc' : AddPc) (db : Db) :
  other <> userId ->
  request_on_track userId item L pc db ->
  request_on_track userId item L pc (snd (step other item' pc' db)).
Proof.
  intros Hne. apply on_track_select.
  destruct pc' as [|existingCart|r]; cbn [add_to_cart_step snd];
    try reflexivity.
  symmetry.
  now apply (write_frame user_id_unique other item' existingCart db).
Qed.

Lemma race_users_on_track (userA userB : Z) (a b : LineItem)
    (LA LB : list LineItem) (schedule : list bool) (s : Race) :
  userA <> userB ->
  request_on_track userA a LA (pcA s) (store s) ->
  request_on_track userB b LB (pcB s) (store s) ->
  let final :=
    fold_left (race_step_users user_id_unique userA userB a b) schedule s in
  request_on_track userA a LA (pcA final) (store final)
  /\ request_on_track userB b LB (pcB final) (store final).
Proof.
  intros Hne. revert s.
  induction schedule as [|who schedule IH]; intros s HA HB; [now split|].
  cbn [fold_left]. apply IH; destruct who; cbn [race_step_users pcA pcB store].
  - now apply step_on_track.
  - apply step_on_track_other; [congruence | exact HA].
  - now apply step_on_track_other.
  - now apply step_on_track.
Qed.

(** Both requests read the rows [first :: rest] before either writes; [x]
    writes first.  Each is answered with the old items and its own. *)
Lemma interleaved_responses (userId : Z) (x y : LineItem) (db : Db)
    (first : CartRow) (rest : list CartRow) (L : list LineItem) :
  select_cart userId db = first :: rest ->
  products first = Some L ->
  let db1 := store_after_write user_id_unique userId x (first :: rest) db in
  snd (catch500 db (written userId x (first :: rest) db))
  = ok_cart userId (L ++ [x])
  /\ snd (catch500 db1 (written userId y (first :: rest) db1))
     = ok_cart userId (L ++ [y]).
Proof.
  intros Hsel HL db1. subst db1.
  destruct (write_over user_id_unique userId x first first rest rest L db
              HL Hsel) as [Hx [Hhd _]].
  rewrite Hx. split; [reflexivity|].
  destruct (select_cart userId
              (store_after_write user_id_unique userId x (first :: rest) db))
    as [|now more] eqn:Hnow; [discriminate|].
  destruct (write_over user_id_unique userId y first now rest more L _
              HL Hnow) as [Hy _].
  now rewrite Hy.
Qed.

End Flight.

(** X10. The lost update is silent.  When two AddToCart calls of a user
    with a stored cart interleave, both are answered 200, each with the old
    items followed by its own item only. *)
Theorem race_both_answered_ok (user_id_unique : bool) (userId : Z)
    (a b : LineItem) (db : Db) (first : CartRow) (rest : list CartRow)
    (L : list LineItem) (schedule : list bool) :
  select_cart userId db = first :: rest ->
  products first = Some L ->
  complete schedule ->
  ~ serial schedule ->
  let final := run_race user_id_unique userId a b schedule db in
  pcA final = Responded (ok_cart userId (L ++ [a]))
  /\ pcB final = Responded (ok_cart userId (L ++ [b])).
Proof.
  intros Hsel HL Hc NS final.
  pose proof (interleaved_responses user_id_unique userId a b db first rest L
                Hsel HL) as Hab.
  pose proof (interleaved_responses user_id_unique userId b a db first rest L
                Hsel HL) as Hba.
  cbv zeta in Hab, Hba. destruct Hab as [Ha1 Hb2]. destruct Hba as [Hb1 Ha2].
  unfold store_after_write in *.
  destruct (complete_cases schedule Hc) as [S|[E|[E|[E|E]]]];
    [contradiction | | | |];
    subst schedule final; unfold run_race;
    cbn [fold_left race_step add_to_cart_step pcA pcB store fst snd];
    rewrite Hsel; split; f_equal; assumption.
Qed.

Lemma race_both_answered_ok_witness :
  let db := priced_store [cart_of 7 [pen]] in
  let schedule := [true; false; false; true] in
  complete schedule
  /\ ~ serial schedule
  /\ pcA (run_race true 7 ink pen schedule db)
     = Responded (ok_cart 7 [pen; ink])
  /\ pcB (run_race true 7 ink pen schedule db)
     = Responded (ok_cart 7 [pen; pen]).
Proof.
  assert (Hc : complete [true; false; false; true]).
  { unfold complete. apply perm_skip.
    apply Permutation_sym.
    exact (Permutation_cons_append [false; false] true). }
  assert (NS : ~ serial [true; false; false; true])
    by (intros [H|H]; discriminate H).
  split; [exact Hc|]. split; [exact NS|].
  exact (race_both_answered_ok true 7 ink pen
           (priced_store [cart_of 7 [pen]]) (cart_of 7 [pen]) [] [pen]
           [true; false; false; true] eq_refl eq_refl Hc NS).
Defined.

(** Both requests found no row; [x] inserts first. *)
Lemma interleaved_inserts (user_id_unique : bool) (userId : Z)
    (x y : LineItem) (db : Db) :
  select_cart userId db = [] ->
  let db1 := store_after_write user_id_unique userId x [] db in
  let db2 := store_after_write user_id_unique userId y [] db1 in
  snd (catch500 db (add_to_cart_write user_id_unique userId x [] db))
  = ok_cart userId [x]
  /\ snd (catch500 db1 (add_to_cart_write user_id_unique userId y [] db1))
     = (if user_id_unique then internal_error else ok_cart userId [y])
  /\ select_cart userId db2
     = (if user_id_unique
        then [cart_of userId [x]]
        else [cart_of userId [x]; cart_of userId [y]]).
Proof.
  intros Hsel db1 db2. subst db2.
  destruct (write_fresh user_id_unique userId x db Hsel) as [Hx H1].
  rewrite Hx. split; [reflexivity|].
  fold db1 in H1. clearbody db1.
  assert (He : existsb (fun r => user_id r =? userId) (shopping_carts db1)
               = true)
    by (unfold select_cart in H1; exact (filter_cons_existsb _ _ _ _ H1)).
  unfold store_after_write, add_to_cart_write, insert_cart. cbn [user_id].
  rewrite He. destruct user_id_unique; cbn [andb bind catch500 fst snd].
  - split; [reflexivity | exact H1].
  - split; [reflexivity|].
    unfold select_cart in *. cbn [shopping_carts].
    rewrite filter_app, H1. simpl. now rewrite Z.eqb_refl.
Qed.

(** X11. When the first two AddToCart calls of a user without a cart
    interleave, the call that writes first is answered 200 with its item.
    With a unique [user_id] the other call is answered 500 and the single
    stored row holds only the first writer's item; without, the other call
    is answered 200 too and the store holds two rows for the user, one item
    each, the first writer's first. *)
Theorem race_of_first_adds (user_id_unique : bool) (userId : Z)
    (a b : LineItem) (db : Db) (schedule : list bool) :
  select_cart userId db = [] ->
  complete schedule ->
  ~ serial schedule ->
  let final := run_race user_id_unique userId a b schedule db in
  let a_last := last schedule true in
  let first_item := if a_last then b else a in
  let last_item := if a_last then a else b in
  (if a_last then pcB final else pcA final)
  = Responded (ok_cart userId [first_item])
  /\ (if a_last then pcA final else pcB final)
     = Responded (if user_id_unique then internal_error
                  else ok_cart userId [last_item])
  /\ select_cart userId (store final)
     = (if user_id_unique
        then [cart_of userId [first_item]]
        else [cart_of userId [first_item]; cart_of userId [last_item]]).
Proof.
  intros Hsel Hc NS final a_last first_item last_item.
  pose proof (interleaved_inserts user_id_unique userId a b db Hsel) as Hab.
  pose proof (interleaved_inserts user_id_unique userId b a db Hsel) as Hba.
  cbv zeta in Hab, Hba.
  destruct Hab as [Ha1 [Hb2 Sab]]. destruct Hba as [Hb1 [Ha2 Sba]].
  unfold store_after_write in *.
  destruct (complete_cases schedule Hc) as [S|[E|[E|[E|E]]]];
    [contradiction | | | |];
    subst schedule final a_last first_item last_item; unfold run_race;
    cbn [last fold_left race_step add_to_cart_step pcA pcB store fst snd];
    rewrite Hsel; (split; [|split]); try (f_equal; assumption).
Qed.

Lemma race_of_first_adds_witness :
  let schedule := [false; true; false; true] in
  let final := run_race true 7 pen ink schedule empty_store in
  complete schedule
  /\ ~ serial schedule
  /\ pcB final = Responded (ok_cart 7 [ink])
  /\ pcA final = Responded internal_error
  /\ select_cart 7 (store final) = [cart_of 7 [ink]].
Proof.
  assert (Hc : complete [false; true; false; true]).
  { unfold complete. apply Permutation_sym.
    apply perm_trans with (l' := [true; false; true; false]).
    - apply perm_skip, perm_swap.
    - apply perm_trans with (l' := [false; true; true; false]).
      + apply perm_swap.
      + apply perm_skip, perm_skip, perm_swap. }
  assert (NS : ~ serial [false; true; false; true])
    by (intros [H|H]; discriminate H).
  split; [exact Hc|]. split; [exact NS|].
  exact (race_of_first_adds true 7 pen ink empty_store
           [false; true; false; true] eq_refl Hc NS).
Defined.

(** X12. AddToCart calls of two different users never interfere: however
    their statements interleave, each is answered 200 with its own old
    items followed by its own item, and that is the cart the store then
    returns for each. *)
Theorem race_of_two_users (user_id_unique : bool) (userA userB : Z)
    (a b : LineItem) (db : Db) (LA LB : list LineItem)
    (schedule : list bool) :
  userA <> userB ->
  cart_holds userA db LA ->
  cart_holds userB db LB ->
  complete schedule ->
  let final :=
    run_race_users user_id_unique userA userB a b schedule db in
  pcA final = Responded (ok_cart userA (LA ++ [a]))
  /\ pcB final = Responded (ok_cart userB (LB ++ [b]))
  /\ hd_error (select_cart userA (store final))
     = Some (cart_of userA (LA ++ [a]))
  /\ hd_error (select_cart userB (store final))
     = Some (cart_of userB (LB ++ [b])).
Proof.
  intros Hne HA HB Hc final.
  destruct (race_users_on_track user_id_unique userA userB a b LA LB schedule
              {| pcA := BeforeSelect; pcB := BeforeSelect; store := db |}
              Hne HA HB) as [TA TB].
  fold (run_race_users user_id_unique userA userB a b schedule db) in TA, TB.
  fold final in TA, TB.
  assert (RA : exists r, pcA final = Responded r)
    by (destruct (complete_cases schedule Hc) as [[E|E]|[E|[E|[E|E]]]];
        subst schedule final; eexists; reflexivity).
  assert (RB : exists r, pcB final = Responded r)
    by (destruct (complete_cases schedule Hc) as [[E|E]|[E|[E|[E|E]]]];
        subst schedule final; eexists; reflexivity).
  destruct RA as [rA EA]. destruct RB as [rB EB].
  rewrite EA in TA |- *. rewrite EB in TB |- *.
  destruct TA as [-> HhA]. destruct TB as [-> HhB]. now repeat split.
Qed.

Lemma race_of_two_users_witness :
  let db := priced_store [cart_of 7 [pen]] in
  let schedule := [true; false; true; false] in
  let final := run_race_users true 7 8 ink pen schedule db in
  7 <> 8
  /\ complete schedule
  /\ hd_error (select_cart 7 (store final)) = Some (cart_of 7 [pen; ink])
  /\ hd_error (select_cart 8 (store final)) = Some (cart_of 8 [pen]).
Proof.
  assert (Hne : 7 <> 8) by discriminate.
  assert (Hc : complete [true; false; true; false])
    by (unfold complete; apply perm_skip, perm_swap).
  split; [exact Hne|]. split; [exact Hc|].
  exact (proj2 (proj2
           (race_of_two_users true 7 8 ink pen
              (priced_store [cart_of 7 [pen]]) [pen] []
              [true; false; true; false] Hne eq_refl eq_refl Hc))).
Defined.

(** * Properties of [/add-product], [/register] and [/login] *)

(** X13. Unless the credential verifies to a principal whose role is
    ["admin"], [/add-product] never reaches its insert: the store is
    unchanged, the answer is 401 or 403, and it is the same whatever the
    insert would have done. *)
Theorem add_product_needs_admin (verify : string -> option Jwt.payload)
    (insert_product : Db -> result (Db * Response))
    (authorization : option string) (db : Db) :
  (forall token user,
     authorization = Some token -> verify token = Some user ->
     Jwt.role user <> "admin") ->
  let out := route_add_product verify insert_product authorization db in
  fst out = db
  /\ (status (snd out) = 401 \/ status (snd out) = 403)
  /\ forall other_insert,
       route_add_product verify other_insert authorization db = out.
Proof.
  intros Hrole out. subst out.
  unfold route_add_product, authenticateToken.
  destruct authorization as [[|c token]|]; try (now repeat split; auto).
  destruct (verify (String c token)) as [user|] eqn:Hv;
    [|now repeat split; auto].
  unfold add_product.
  destruct (String.eqb_spec (Jwt.role user) "admin") as [E|_].
  - now destruct (Hrole _ user eq_refl Hv).
  - now repeat split; auto.
Qed.

Lemma add_product_needs_admin_witness :
  let out := route_add_product sample_verify sample_insert (Some "customer")
               empty_store in
  fst out = empty_store /\ snd out = no_rights.
Proof.
  assert (Hrole : forall token user,
            Some "customer" = Some token -> sample_verify token = Some user ->
            Jwt.role user <> "admin").
  { intros token user [= <-] [= <-]. discriminate. }
  split; [|reflexivity].
  exact (proj1 (add_product_needs_admin sample_verify sample_insert
                  (Some "customer") empty_store Hrole)).
Defined.

Section AccountFacts.

Variable bcrypt_hash : string -> string -> string.
Variable bcrypt_compare : string -> string -> bool.
Variable sign : Jwt.payload -> string.
Variable username_unique : bool.

Lemma insert_user_fresh (new_id : Z) (username hashed role : string)
    (users : list Users.row) :
  select_user username users = [] ->
  let row := {| Users.id := new_id; Users.username := username;
                Users.password := hashed; Users.role := role |} in
  insert_user username_unique new_id username hashed role users
  = Ok (users ++ [row], [row])
  /\ select_user username (users ++ [row]) = [row].
Proof.
  intros Hsel row. unfold insert_user, select_user in *.
  rewrite (filter_nil_existsb _ _ Hsel), andb_false_r.
  split; [reflexivity|].
  rewrite filter_app, Hsel. simpl. now rewrite String.eqb_refl.
Qed.

Lemma select_user_behind (username : string) (users : list Users.row)
    (old row : Users.row) (rest : list Users.row) :
  select_user username users = old :: rest ->
  exists rest', select_user username (users ++ [row]) = old :: rest'.
Proof.
  intros Hsel. unfold select_user in *. rewrite filter_app, Hsel.
  now eexists.
Qed.

End AccountFacts.

(** X14. Registering a username the table does not hold yet is answered
    201 with a token for the new row's id and the role sent in the body;
    logging in afterwards with the same password is answered 200 with a
    token for the same id and role, and with a password that does not match
    the stored hash it is answered 401. *)
Theorem register_then_login (bcrypt_hash : string -> string -> string)
    (bcrypt_compare : string -> string -> bool)
    (sign : Jwt.payload -> string) (username_unique : bool)
    (salt : string) (new_id : Z) (username password role : string)
    (users : list Users.row) :
  select_user username users = [] ->
  bcrypt_compare password (bcrypt_hash salt password) = true ->
  let out := register bcrypt_hash sign username_unique salt new_id
               username password role users in
  let token := sign {| Jwt.id := new_id; Jwt.role := role |} in
  snd out = {| account_status := 201; account_body := TokenJson token |}
  /\ login bcrypt_compare sign username password (fst out)
     = {| account_status := 200; account_body := TokenJson token |}
  /\ forall wrong,
       bcrypt_compare wrong (bcrypt_hash salt password) = false ->
       login bcrypt_compare sign username wrong (fst out) = invalid_login.
Proof.
  intros Hsel Hcmp out token. subst out token. unfold register.
  destruct (insert_user_fresh username_unique new_id username
              (bcrypt_hash salt password) role users Hsel) as [-> Hnew].
  cbn [fst snd Users.id Users.role]. split; [reflexivity|].
  unfold login. rewrite Hnew. cbn [Users.password Users.id Users.role].
  rewrite Hcmp. split; [reflexivity|]. now intros wrong ->.
Qed.

Lemma register_then_login_witness :
  let out := register sample_hash sample_sign true "s" 2 "bob" "pw"
               "customer" [ann] in
  select_user "bob" [ann] = []
  /\ sample_compare "pw" (sample_hash "s" "pw") = true
  /\ login sample_compare sample_sign "bob" "pw" (fst out)
     = {| account_status := 200; account_body := TokenJson "t:customer" |}.
Proof.
  split; [reflexivity|]. split; [reflexivity|].
  exact (proj1 (proj2
           (register_then_login sample_hash sample_compare sample_sign true
              "s" 2 "bob" "pw" "customer" [ann] eq_refl eq_refl))).
Defined.

(** X15. Registering a username the table already holds is answered 500,
    with the table unchanged, when [username] is unique.  When it is not,
    the call is answered 201 with a token for the new row, but every later
    login under that username is answered as before the call: it still
    checks the password of the older row. *)
Theorem register_taken_username (bcrypt_hash : string -> string -> string)
    (bcrypt_compare : string -> string -> bool)
    (sign : Jwt.payload -> string) (username_unique : bool)
    (salt : string) (new_id : Z) (username password role : string)
    (users : list Users.row) (old : Users.row) (rest : list Users.row) :
  select_user username users = old :: rest ->
  let out := register bcrypt_hash sign username_unique salt new_id
               username password role users in
  if username_unique
  then out = (users, account_error)
  else snd out
       = {| account_status := 201;
            account_body :=
              TokenJson (sign {| Jwt.id := new_id; Jwt.role := role |}) |}
       /\ forall p,
            login bcrypt_compare sign username p (fst out)
            = login bcrypt_compare sign username p users.
Proof.
  intros Hsel out. subst out. unfold register, insert_user.
  assert (He : existsb (fun r => String.eqb (Users.username r) username) users
               = true)
    by (unfold select_user in Hsel; exact (filter_cons_existsb _ _ _ _ Hsel)).
  rewrite He. destruct username_unique; cbn [andb fst snd]; [reflexivity|].
  split; [reflexivity|]. intros p. unfold login.
  destruct (select_user_behind username users old
              {| Users.id := new_id; Users.username := username;
                 Users.password := bcrypt_hash salt password;
                 Users.role := role |} rest Hsel) as [rest' ->].
  now rewrite Hsel.
Qed.

Lemma register_taken_username_witness :
  let out := register sample_hash sample_sign false "s" 2 "ann" "pw"
               "customer" [ann] in
  select_user "ann" [ann] = [ann]
  /\ snd out
     = {| account_status := 201; account_body := TokenJson "t:customer" |}
  /\ login sample_compare sample_sign "ann" "pw" (fst out) = invalid_login.
Proof.
  split; [reflexivity|].
  destruct (register_taken_username sample_hash sample_compare sample_sign
              false "s" 2 "ann" "pw" "customer" [ann] ann [] eq_refl)
    as [Hout Hlogin].
  split; [exact Hout|]. rewrite Hlogin. reflexivity.
Defined.


